(** * grading-collector: assemble_grading_comments.py

    A shallow embedding of [assemble_grading_comments.py] and the
    properties its specification states about it.

    Conventions of the embedding.
    - A Python [str] is the list of its code points ([list N]); a file is
      the list of its bytes.
    - What the interpreter contributes is a parameter ([runtime]): the
      Unicode table of decimal digits behind [\d] and [int()], and the
      limit on the length of a digit string that [int()] converts
      ([sys.get_int_max_str_digits()], 4300 unless reconfigured, 0 when
      switched off).
    - The file system is a tree of plain files and directories (no
      links) with read permissions, as [os.listdir] and [os.walk] see it;
      [os.path] is [posixpath].  A call gets the directory its path names
      as an argument ([target]).
    - Exceptions are values: a call returns or raises ([outcome]); what
      it prints and what it writes to disk is part of what it returns.
      Whether a report can be opened for writing is a parameter
      ([write_error]); a report that can is written whole. *)

From Stdlib Require Import ZArith NArith String Ascii DecimalString DecimalPos Lia.
From stdpp Require Import base option list gmap sorting.

Local Open Scope N_scope.

#[local] Set Warnings "-clear-no-such-hyp".

(** ** Text *)

Abbreviation str := (list N).

(** The code points of a literal. *)
Definition lit (s : string) : str :=
  map N_of_ascii (list_ascii_of_string s).

Definition GRADING_MARKER : str := lit "### Grading:".

Definition REPORT_FILE_NAME : str := lit "grading_report.txt".

(** [str.isspace] of one character, which is also the class [\s] of a
    [str] pattern: the characters CPython lists as white space. *)
Definition isspace (c : N) : bool :=
  ((0x09 <=? c) && (c <=? 0x0D)) || ((0x1C <=? c) && (c <=? 0x20))
  || (c =? 0x85) || (c =? 0xA0) || (c =? 0x1680)
  || ((0x2000 <=? c) && (c <=? 0x200A))
  || (c =? 0x2028) || (c =? 0x2029) || (c =? 0x202F) || (c =? 0x205F)
  || (c =? 0x3000).

Fixpoint lstrip (s : str) : str :=
  match s with
  | c :: r => if isspace c then lstrip r else s
  | [] => []
  end.

Definition rstrip (s : str) : str := rev (lstrip (rev s)).

(** [s.strip()] *)
Definition strip (s : str) : str := rstrip (lstrip s).

(** [s.startswith(p)] *)
Fixpoint startswith (p s : str) : bool :=
  match p, s with
  | [], _ => true
  | a :: p', b :: s' => (a =? b) && startswith p' s'
  | _ :: _, [] => false
  end.

(** [s.endswith(p)] *)
Definition endswith (p s : str) : bool := startswith (rev p) (rev s).

(** [s.find(sub)]: the lowest index where [sub] starts, if any.  Both
    [sub in s] and [s.index(sub)] are this search. *)
Fixpoint find (sub s : str) : option nat :=
  if startswith sub s then Some 0%nat
  else match s with
       | [] => None
       | _ :: r => S <$> find sub r
       end.

(** ** The interpreter's part *)

Record runtime := {
  (** [unicodedata.decimal]: the value of a character of category Nd. *)
  decimal : N → option N;
  decimal_ascii : ∀ c, c < 128 →
    decimal c = if (48 <=? c) && (c <=? 57) then Some (c - 48) else None;
  decimal_below_ten : ∀ c v, decimal c = Some v → v < 10;
  decimal_not_space : ∀ c, isspace c = true → decimal c = None;
  (** [sys.get_int_max_str_digits()] *)
  int_max_str_digits : nat
}.

Section Interpreter.

Variable py : runtime.

Definition isdecimal (c : N) : bool :=
  match decimal py c with Some _ => true | None => false end.

(** *** [re]: the fragment the pattern uses *)

Inductive category := CategorySpace | CategoryDigit.

Definition in_category (k : category) (c : N) : bool :=
  match k with
  | CategorySpace => isspace c
  | CategoryDigit => isdecimal c
  end.

(** A pattern is a sequence of items: a literal character, or a greedy
    repetition of a character class, at least [min] times, which is a
    capturing group when [capture] is set. *)
Inductive item :=
  | Literal (c : N)
  | Repeat (capture : bool) (k : category) (min : nat).

(** [re.escape]: every character of the argument stands for itself. *)
Definition escape (s : str) : list item := map Literal s.

(** How many leading characters of [s] are in class [k]. *)
Fixpoint run_length (k : category) (s : str) : nat :=
  match s with
  | c :: r => if in_category k c then S (run_length k r) else 0%nat
  | [] => 0%nat
  end.

(** Backtracking over a greedy repetition: the longest count first, then
    one character less, down to [min]. *)
Fixpoint try_counts {R} (k : nat → option R) (min n : nat) : option R :=
  match k n with
  | Some r => Some r
  | None =>
      match n with
      | O => None
      | S n' => if (n' <? min)%nat then None else try_counts k min n'
      end
  end.

(** Match the pattern at the head of [s]: the captured groups and the
    text left after the match. *)
Fixpoint match_here (p : list item) (s : str) : option (list str * str) :=
  match p with
  | [] => Some ([], s)
  | Literal c :: p' =>
      match s with
      | x :: s' => if x =? c then match_here p' s' else None
      | [] => None
      end
  | Repeat capture k min :: p' =>
      let n := run_length k s in
      if (n <? min)%nat then None
      else try_counts
             (λ i, match match_here p' (drop i s) with
                   | Some (groups, rest) =>
                       Some (if capture then take i s :: groups else groups,
                             rest)
                   | None => None
                   end) min n
  end.

(** [pattern.findall(s)]: scan left to right; a match is reported and the
    scan resumes where it ended (one character on after an empty match,
    which the pattern of this program does not have).  [skip] counts the
    characters of the last match still to be passed over. *)
Fixpoint findall_from (p : list item) (s : str) (skip : nat)
  : list (list str) :=
  match skip, s with
  | S k, _ :: r => findall_from p r k
  | S _, [] => []
  | O, _ =>
      match match_here p s with
      | Some (groups, rest) =>
          groups ::
          match s with
          | [] => []
          | _ :: r => findall_from p r (length s - length rest - 1)
          end
      | None =>
          match s with
          | [] => []
          | _ :: r => findall_from p r 0
          end
      end
  end.

Definition findall (p : list item) (s : str) : list (list str) :=
  findall_from p s 0.

(** *** [int] *)

(** The digit-count check of the string to integer conversion. *)
Definition exceeds_limit (digits : nat) : bool :=
  (640 <? digits)%nat && (0 <? int_max_str_digits py)%nat
  && (int_max_str_digits py <? digits)%nat.

(** The number a sequence of digit values denotes in base ten. *)
Definition of_digits (ds : list N) : Z :=
  fold_left (λ acc d, acc * 10 + Z.of_N d)%Z ds 0%Z.

(** [int(s)] for the arguments this program passes, the captures of
    [(\d+)]: [None] is [ValueError].  (Signs, underscores and blanks
    around the digits, which [int] also accepts, never reach it here.) *)
Definition py_int (s : str) : option Z :=
  match mapM (decimal py) s with
  | Some [] => None
  | Some ds => if exceeds_limit (length ds) then None else Some (of_digits ds)
  | None => None
  end.

(** ** compute_score_totals *)

(** [r"\s*(\d+)\s*/\s*(\d+)"] *)
Definition score_items : list item :=
  [ Repeat false CategorySpace 0; Repeat true CategoryDigit 1;
    Repeat false CategorySpace 0; Literal 47 (* / *);
    Repeat false CategorySpace 0; Repeat true CategoryDigit 1 ].

(** [re.compile(re.escape(GRADING_MARKER) + r"\s*(\d+)\s*/\s*(\d+)")] *)
Definition pattern : list item := escape GRADING_MARKER ++ score_items.

(** The body of the inner loop: one match of [findall]. *)
Definition add_match (totals : Z * Z) (m : list str) : Z * Z :=
  match m with
  | [obtained_str; possible_str] =>
      match py_int obtained_str, py_int possible_str with
      | Some obt, Some pos => (totals.1 + obt, totals.2 + pos)%Z
      | _, _ => totals (* except ValueError: continue *)
      end
  | _ => totals
  end.

(** The body of the outer loop: one comment. *)
Definition add_comment (totals : Z * Z) (c : str) : Z * Z :=
  fold_left add_match (findall pattern c) totals.

Definition compute_score_totals (grading_comments : list str) : Z * Z :=
  fold_left add_comment grading_comments (0, 0)%Z.


(** *** The aggregation in the words of the specification

    "Every occurrence of the pattern: the marker token, then optional
    whitespace, digits, optional whitespace, '/', optional whitespace,
    digits, anywhere within each string." *)

(** The digits at the head of [s]. *)
Fixpoint leading_digits (s : str) : str :=
  match s with
  | c :: r => if isdecimal c then c :: leading_digits r else []
  | [] => []
  end.

(** The two digit groups of the occurrence that starts at the head of [s]. *)
Definition score_pair_at (s : str) : option (str * str) :=
  if startswith GRADING_MARKER s then
    let after_marker := lstrip (drop (length GRADING_MARKER) s) in
    let obtained := leading_digits after_marker in
    match obtained, lstrip (drop (length obtained) after_marker) with
    | _ :: _, c :: after_slash =>
        if c =? 47 (* / *) then
          match leading_digits (lstrip after_slash) with
          | [] => None
          | possible => Some (obtained, possible)
          end
        else None
    | _, _ => None
    end
  else None.

(** The occurrences at every position of [s], left to right. *)
Fixpoint score_pairs (s : str) : list (str * str) :=
  match score_pair_at s with Some p => [p] | None => [] end ++
  match s with
  | [] => []
  | _ :: r => score_pairs r
  end.

(** The two groups as [findall] reports them. *)
Definition groups_of (pr : str * str) : list str := [pr.1; pr.2].

(** A non-empty run of decimal digits: what a group captures. *)
Definition digit_group (d : str) : Prop :=
  d ≠ [] ∧ Forall (λ c, isdecimal c = true) d.

(** The integer a digit string denotes. *)
Definition digits_value (d : str) : Z :=
  of_digits (map (λ c, default 0 (decimal py c)) d).

Definition pair_value (p : str * str) : Z * Z :=
  (digits_value p.1, digits_value p.2).

Definition pair_add (a b : Z * Z) : Z * Z := (a.1 + b.1, a.2 + b.2)%Z.

Definition pair_sum (l : list (Z * Z)) : Z * Z := foldr pair_add (0, 0)%Z l.

Definition nonnegative (t : Z * Z) : Prop := (0 ≤ t.1 ∧ 0 ≤ t.2)%Z.

(** Sum of every occurrence in every string. *)
Definition sum_of_all_pairs (comments : list str) : Z * Z :=
  pair_sum (pair_value <$> (comments ≫= score_pairs)).

(** [int] converts both groups of the pair. *)
Definition converts (p : str * str) : bool :=
  negb (exceeds_limit (length p.1)) && negb (exceeds_limit (length p.2)).

(** Sum of the occurrences that [int] converts. *)
Definition sum_of_converted_pairs (comments : list str) : Z * Z :=
  pair_sum (pair_value <$> List.filter converts (comments ≫= score_pairs)).

End Interpreter.

(** ** A concrete interpreter

    The table that knows the ten ASCII digits only: what every Unicode
    table says on ASCII text. *)

Definition ascii_decimal (c : N) : option N :=
  if (48 <=? c) && (c <=? 57) then Some (c - 48) else None.

Definition ascii_runtime (limit : nat) : runtime.
Proof.
  refine {| decimal := ascii_decimal; int_max_str_digits := limit |}.
  - reflexivity.
  - intros c v. unfold ascii_decimal. destruct (_ && _) eqn:E; [|done].
    apply andb_true_iff in E as [?%N.leb_le ?%N.leb_le].
    intros [= <-]. lia.
  - intros c. unfold ascii_decimal. destruct (_ && _) eqn:E; [|done].
    apply andb_true_iff in E as [?%N.leb_le ?%N.leb_le].
    unfold isspace. intros Hs.
    repeat (apply orb_true_iff in Hs; destruct Hs as [Hs|Hs]);
      first [ apply andb_true_iff in Hs; destruct Hs as [?%N.leb_le ?%N.leb_le]
            | apply N.eqb_eq in Hs ]; lia.
Defined.

(** The interpreter of the examples: the limit CPython installs (Python
    3.11 and later, and the security releases before it), conversions of
    more than 4300 digits refused. *)
Definition cpython : runtime := ascii_runtime 4300.

(** A score with a digit group of 4301 digits. *)
Definition long_score : str :=
  lit "### Grading: " ++ repeat 49 4301 ++ lit "/1".

(** ** Exceptions and results *)

Inductive exn :=
  | FileNotFoundError (message : str)
  | OSError (message : str)  (** any other [OSError] *)
  | UnicodeDecodeError.      (** a [ValueError], not an [OSError] *)

(** [except OSError] catches [FileNotFoundError], a subclass, too. *)
Definition is_OSError (e : exn) : bool :=
  match e with
  | FileNotFoundError _ | OSError _ => true
  | UnicodeDecodeError => false
  end.

Inductive outcome (A : Type) :=
  | Return (a : A)
  | Raise (e : exn).
Arguments Return {A} a.
Arguments Raise {A} e.

(** A loop whose body may raise: the exception ends the loop. *)
Fixpoint for_each {S A} (body : S → A → outcome S) (l : list A) (st : S)
  : outcome S :=
  match l with
  | [] => Return st
  | a :: r =>
      match body st a with
      | Return st' => for_each body r st'
      | Raise e => Raise e
      end
  end.

(** ** Reading a text file *)

Definition continuation (b : N) : bool := (0x80 <=? b) && (b <=? 0xBF).

Definition between (lo b hi : N) : bool := (lo <=? b) && (b <=? hi).

(** The strict UTF-8 decoder of [open(..., encoding='utf-8')]: no
    overlong forms, no surrogates, nothing above U+10FFFF.  [None] is
    [UnicodeDecodeError]. *)
Fixpoint utf8_decode (bytes : list N) : option str :=
  match bytes with
  | [] => Some []
  | b0 :: r =>
      if b0 <? 0x80 then cons b0 <$> utf8_decode r
      else if between 0xC2 b0 0xDF then
        match r with
        | b1 :: r1 =>
            if continuation b1
            then cons ((b0 - 0xC0) * 64 + (b1 - 0x80)) <$> utf8_decode r1
            else None
        | _ => None
        end
      else if between 0xE0 b0 0xEF then
        match r with
        | b1 :: b2 :: r2 =>
            if between (if b0 =? 0xE0 then 0xA0 else 0x80) b1
                       (if b0 =? 0xED then 0x9F else 0xBF)
               && continuation b2
            then cons ((b0 - 0xE0) * 4096 + (b1 - 0x80) * 64 + (b2 - 0x80))
                   <$> utf8_decode r2
            else None
        | _ => None
        end
      else if between 0xF0 b0 0xF4 then
        match r with
        | b1 :: b2 :: b3 :: r3 =>
            if between (if b0 =? 0xF0 then 0x90 else 0x80) b1
                       (if b0 =? 0xF4 then 0x8F else 0xBF)
               && continuation b2 && continuation b3
            then cons ((b0 - 0xF0) * 262144 + (b1 - 0x80) * 4096
                       + (b2 - 0x80) * 64 + (b3 - 0x80))
                   <$> utf8_decode r3
            else None
        | _ => None
        end
      else None
  end.

(** The lines a text file in universal-newline mode iterates over: each
    of [\n], [\r] and [\r\n] ends a line and is handed over as [\n]. *)
Fixpoint read_lines (line text : str) : list str :=
  match text with
  | [] => match line with [] => [] | _ => [line] end
  | c :: r =>
      if c =? 10 then (line ++ [10]) :: read_lines [] r
      else if c =? 13 then
        (line ++ [10]) ::
        read_lines []
          match r with
          | c' :: r' => if c' =? 10 then r' else r
          | [] => r
          end
      else read_lines (line ++ [c]) r
  end.

(** What [open] and the iteration over the file deliver: some lines, and
    then the end of the file or an exception. *)
Record reading := {
  lines : list str;
  failure : option exn
}.

(** ** extract_grading_comments_from_file *)

(** The body of the loop over the lines. *)
Definition keep_comment (grading_comments : list str) (line : str)
  : list str :=
  let line_text := strip line in
  match line_text with
  | [] => grading_comments
  | _ =>
      match find GRADING_MARKER line_text with
      | Some i => grading_comments ++ [strip (drop i line_text)]
      | None => grading_comments
      end
  end.

(** The text of a line from its first marker on, when it has one. *)
Definition marker_text (line : str) : option str :=
  (λ i, drop i (strip line)) <$> find GRADING_MARKER (strip line).

(** The second component is what the call prints. *)
Definition extract_grading_comments_from_file (file_name : str) (r : reading)
  : outcome (list str) * list str :=
  let grading_comments := fold_left keep_comment (lines r) [] in
  match failure r with
  | None => (Return grading_comments, [])
  | Some (FileNotFoundError _) =>
      (Return grading_comments,
       [lit "The file '" ++ file_name ++ lit "' was not found."])
  | Some (OSError e) =>
      (Return grading_comments,
       [lit "An I/O error occurred while reading '" ++ file_name
        ++ lit "': " ++ e])
  | Some e => (Raise e, [])
  end.

(** ** The file system *)

(** A directory tree: plain files with their bytes, directories with
    their entries in the order the system lists them.  [readable] and
    [listable] are the permissions. *)
#[warnings="-register-all"]
Inductive node :=
  | File (readable : bool) (content : list N)
  | Dir (listable : bool) (entries : list (str * node)).

Definition is_file (entry : str * node) : bool :=
  match entry.2 with File _ _ => true | Dir _ _ => false end.

Definition is_dir (entry : str * node) : bool := negb (is_file entry).

Definition errno_message (text path : str) : str :=
  text ++ lit ": '" ++ path ++ lit "'".

(** Reading the text of a file from [bytes].  Bytes that are no UTF-8
    end the reading with the exception, whatever was read before them. *)
Definition read_text (bytes : list N) : reading :=
  match utf8_decode bytes with
  | Some text => {| lines := read_lines [] text; failure := None |}
  | None => {| lines := []; failure := Some UnicodeDecodeError |}
  end.

(** [open(path, 'r', encoding='utf-8')] and the iteration over its
    lines, when [path] names [target] ([None]: nothing). *)
Definition open_file (path : str) (target : option node) : reading :=
  match target with
  | None =>
      {| lines := [];
         failure := Some (FileNotFoundError
           (errno_message (lit "[Errno 2] No such file or directory") path)) |}
  | Some (Dir _ _) =>
      {| lines := [];
         failure := Some (OSError
           (errno_message (lit "[Errno 21] Is a directory") path)) |}
  | Some (File false _) =>
      {| lines := [];
         failure := Some (OSError
           (errno_message (lit "[Errno 13] Permission denied") path)) |}
  | Some (File true bytes) => read_text bytes
  end.

(** *** [os.path] *)

Definition sep : N := 47.

(** [os.path.join(a, b)] *)
Definition join (a b : str) : str :=
  if startswith [sep] b then b
  else match a with
       | [] => b
       | _ => if endswith [sep] a then a ++ b else a ++ [sep] ++ b
       end.

(** The characters before the first separator. *)
Fixpoint until_sep (s : str) : str :=
  match s with
  | c :: r => if c =? sep then [] else c :: until_sep r
  | [] => []
  end.

(** The text from the first separator on. *)
Fixpoint from_sep (s : str) : str :=
  match s with
  | c :: r => if c =? sep then s else from_sep r
  | [] => []
  end.

Fixpoint lstrip_sep (s : str) : str :=
  match s with
  | c :: r => if c =? sep then lstrip_sep r else s
  | [] => []
  end.

(** [os.path.basename(p)]: what follows the last separator. *)
Definition basename (p : str) : str := rev (until_sep (rev p)).

(** [os.path.dirname(p)]: the text up to the last separator, without
    its trailing separators unless it consists of separators only. *)
Definition dirname (p : str) : str :=
  let head := rev (from_sep (rev p)) in
  if forallb (N.eqb sep) head then head else rev (lstrip_sep (rev head)).

(** *** Listing *)

(** One item of the walk: [(root, dirs, files)]; a file name comes with
    the file it names. *)
Definition walk_item : Type := str * list str * list (str * node).

(** [os.listdir(directory_path)] kept to the entries that are files. *)
Definition list_files (directory_path : str) (target : option node)
  : outcome (list (str * node)) :=
  match target with
  | Some (Dir true entries) => Return (List.filter is_file entries)
  | Some (Dir false _) =>
      Raise (OSError
        (errno_message (lit "[Errno 13] Permission denied") directory_path))
  | Some (File _ _) =>
      Raise (OSError
        (errno_message (lit "[Errno 20] Not a directory") directory_path))
  | None =>
      Raise (FileNotFoundError
        (errno_message (lit "[Errno 2] No such file or directory")
           directory_path))
  end.

(** [os.walk(top)], top-down.  A directory that cannot be listed, and a
    [top] that is no directory, yield nothing: the error is ignored. *)
Fixpoint os_walk (top : str) (target : node) : list walk_item :=
  match target with
  | Dir true entries =>
      (top, (List.filter is_dir entries).*1, List.filter is_file entries) ::
      (fix subdirs (es : list (str * node)) : list walk_item :=
         match es with
         | [] => []
         | (name, n) :: es' => os_walk (join top name) n ++ subdirs es'
         end) entries
  | _ => []
  end.

(** *** What a file system guarantees *)

(** An entry name is not empty and holds no separator. *)
Definition valid_name (name : str) : Prop := name ≠ [] ∧ sep ∉ name.

(** In every directory the names are valid and pairwise different. *)
Fixpoint well_formed (n : node) : Prop :=
  match n with
  | File _ _ => True
  | Dir _ entries =>
      NoDup entries.*1 ∧ Forall valid_name entries.*1 ∧
      (fix all (es : list (str * node)) : Prop :=
         match es with
         | [] => True
         | (_, n') :: es' => well_formed n' ∧ all es'
         end) entries
  end.

(** [p] lies in the entry [name] of the directory [top]: it is the path
    of the entry, or continues it after a separator. *)
Definition inside (top name p : str) : Prop :=
  ∃ rest, p = join top [] ++ name ++ rest ∧ (rest = [] ∨ ∃ r, rest = sep :: r).

(** *** Sample files *)

(** A source file saved in Latin-1: [# caf\xe9], then a score. *)
Definition latin1_file : node :=
  File true (lit "# caf" ++ [0xE9; 10] ++ lit "### Grading: 1/1" ++ [10]).

(** A file with CRLF and LF line ends, a marker after code and an
    indented marker. *)
Definition two_marker_file : node :=
  File true
    (lit "x = 1  ### Grading: 1/2 " ++ [13; 10] ++ lit "y = 2" ++ [10]
     ++ lit "   ### Grading: 3/4").

(** ** compute_totals_in_directory *)

(** [sorted] on strings: by code points, the order of [str]. *)
Fixpoint str_leb (a b : str) : bool :=
  match a, b with
  | [], _ => true
  | _ :: _, [] => false
  | x :: a', y :: b' =>
      if x <? y then true else if x =? y then str_leb a' b' else false
  end.

Definition str_le (a b : str) : Prop := str_leb a b = true.

#[local] Instance str_le_dec a b : Decision (str_le a b) :=
  decide (str_leb a b = true).

Definition sorted (l : list str) : list str := merge_sort str_le l.

(** [str(z)] of an integer *)
Definition str_of_Z (z : Z) : str :=
  lit (DecimalString.NilZero.string_of_int (Z.to_int z)).

Definition nl : str := [10].

(** [str(e)] *)
Definition exn_text (e : exn) : str :=
  match e with
  | FileNotFoundError message | OSError message => message
  | UnicodeDecodeError => lit "'utf-8' codec can't decode"
  end.

(** [per_file_results]: path to [(comments_list, (obtained, possible))]. *)
Abbreviation table := (gmap str (list str * (Z * Z))).

(** What a call returns: the pair, or the triple with the table. *)
Inductive result :=
  | Totals (total_obtained total_possible : Z)
  | TotalsAndTable (total_obtained total_possible : Z)
      (per_file_results : table).

(** The variables of the scan loop, and what it has printed. *)
Record scan := {
  totals : Z * Z;
  per_file_results : table;
  scan_printed : list str
}.

(** A finished call: its value, its output, and the files it wrote, in
    the order it wrote them. *)
Record run := {
  returned : result;
  printed : list str;
  written : list (str * str)
}.

Section Walker.

Variable py : runtime.

(** [open(report_path, 'w')]: the message of the [OSError] it raises,
    where it does. *)
Variable write_error : str → option str.

(** The body of the loop over the files of one directory. *)
Definition scan_file (keep : bool) (root : str) (st : scan)
    (file : str * node) : outcome scan :=
  if endswith (lit ".py") file.1 then
    let path := join root file.1 in
    match extract_grading_comments_from_file path
            (open_file path (Some file.2)) with
    | (Raise e, out) =>
        if is_OSError e then
          Return {| totals := totals st;
                    per_file_results := per_file_results st;
                    scan_printed :=
                      scan_printed st ++ out ++
                      [lit "Skipping '" ++ path ++ lit "' due to I/O error: "
                       ++ exn_text e] |}
        else Raise e
    | (Return file_comments, out) =>
        let score := compute_score_totals py file_comments in
        Return {| totals := pair_add (totals st) score;
                  per_file_results :=
                    if keep
                    then <[path := (file_comments, score)]>
                           (per_file_results st)
                    else per_file_results st;
                  scan_printed := scan_printed st ++ out |}
    end
  else Return st.

(** The turn of the loop for a file named [*.py], by its path. *)
Definition record_file (keep : bool) (st : scan) (pf : str * node)
  : outcome scan :=
  match extract_grading_comments_from_file pf.1 (open_file pf.1 (Some pf.2)) with
  | (Return file_comments, out) =>
      Return {| totals := pair_add (totals st)
                            (compute_score_totals py file_comments);
                per_file_results :=
                  if keep
                  then <[pf.1 := (file_comments,
                                  compute_score_totals py file_comments)]>
                         (per_file_results st)
                  else per_file_results st;
                scan_printed := scan_printed st ++ out |}
  | (Raise e, _) => Raise e
  end.

(** The totals of one processed file, (0, 0) if reading it raises. *)
Definition file_score (pf : str * node) : Z * Z :=
  match (extract_grading_comments_from_file pf.1
           (open_file pf.1 (Some pf.2))).1 with
  | Return file_comments => compute_score_totals py file_comments
  | Raise _ => (0, 0)%Z
  end.

(** The body of the loop over the walk. *)
Definition scan_directory (keep : bool) (st : scan) (item : walk_item)
  : outcome scan :=
  for_each (scan_file keep item.1.1) item.2 st.

Definition scan_walk (keep : bool) (walker : list walk_item) : outcome scan :=
  for_each (scan_directory keep) walker
    {| totals := (0, 0)%Z; per_file_results := ∅; scan_printed := [] |}.

(** The files a scan of [walker] processes, those named [*.py], by the
    path under which they are opened. *)
Definition processed (walker : list walk_item) : list (str * node) :=
  walker ≫= λ item,
    (λ f : str * node, (join item.1.1 f.1, f.2)) <$>
    List.filter (λ f : str * node, endswith (lit ".py") f.1) item.2.

(** The paths of the files processed in one directory of the walk. *)
Definition item_paths (item : walk_item) : list str :=
  (λ f : str * node, join item.1.1 f.1) <$>
  List.filter (λ f : str * node, endswith (lit ".py") f.1) item.2.

(** The paths processed in the entry [e] of the directory [top]: [e]
    itself when it is a file named [*.py], and what the walk finds
    below [e]. *)
Definition own_path (top : str) (e : str * node) : list str :=
  if is_file e && endswith (lit ".py") e.1 then [join top e.1] else [].

Definition entry_paths (top : str) (e : str * node) : list str :=
  own_path top e ++ (os_walk (join top e.1) e.2 ≫= item_paths).

(** The files of the report of [d], in the order they are reported. *)
Definition files_in_dir (results : table) (d : str) : list str :=
  List.filter (λ p, bool_decide (dirname p = d))
    (sorted (elements (dom results))).

(** The body of the loop over [files_in_dir]: what is written for [p],
    and the grand total so far. *)
Definition report_file (results : table) (acc : list str * (Z * Z))
    (p : str) : list str * (Z * Z) :=
  match results !! p with
  | Some (comments_list, (fobt, fpos)) =>
      (acc.1
       ++ [lit "File: " ++ basename p ++ nl]
       ++ ((λ c, c ++ nl) <$> comments_list)
       ++ [lit "Total for " ++ basename p ++ lit ": " ++ str_of_Z fobt
           ++ lit " / " ++ str_of_Z fpos ++ nl;
           nl],
       pair_add acc.2 (fobt, fpos))
  | None => acc
  end.

(** [(grand_obt, grand_pos)] when the loop over the files is over. *)
Definition grand_total (results : table) (d : str) : Z * Z :=
  (fold_left (report_file results) (files_in_dir results d) ([], (0, 0)%Z)).2.

Definition grand_total_line (grand : Z * Z) : str :=
  lit "Grand total: " ++ str_of_Z grand.1 ++ lit " / " ++ str_of_Z grand.2
  ++ nl.

(** The strings written to the report of [d], one per [rpt.write]. *)
Definition report (results : table) (d : str) : list str :=
  [lit "Grading report for directory: " ++ basename d ++ nl; nl]
  ++ (fold_left (report_file results) (files_in_dir results d)
        ([], (0, 0)%Z)).1
  ++ [grand_total_line (grand_total results d)].

(** The directories that get a report. *)
Definition dirs_to_report (results : table) (directory_path : str)
    (recursive : bool) : gset str :=
  if recursive then list_to_set (dirname <$> elements (dom results))
  else {[ directory_path ]}.

(** The body of the loop over the directories to report: the files
    written and the lines printed so far. *)
Definition write_one_report (results : table)
    (acc : list (str * str) * list str) (d : str)
  : list (str * str) * list str :=
  let report_path := join d REPORT_FILE_NAME in
  match write_error report_path with
  | None => (acc.1 ++ [(report_path, concat (report results d))], acc.2)
  | Some e =>
      (acc.1,
       acc.2 ++ [lit "Could not write report to '" ++ report_path
                 ++ lit "': " ++ e])
  end.

Definition write_reports (results : table) (directory_path : str)
    (recursive : bool) : list (str * str) * list str :=
  fold_left (write_one_report results)
    (sorted (elements (dirs_to_report results directory_path recursive)))
    ([], []).

(** [target] is what [directory_path] names, [None] when nothing. *)
Definition compute_totals_in_directory (directory_path : str)
    (target : option node) (recursive report_per_file write_report : bool)
  : outcome run :=
  let walker :=
    if recursive then
      Return match target with
             | Some n => os_walk directory_path n
             | None => []
             end
    else
      match list_files directory_path target with
      | Return files => Return [(directory_path, [], files)]
      | Raise e => Raise e
      end in
  match walker with
  | Raise e =>
      if is_OSError e then
        Return {| returned := Totals 0 0;
                  printed := [lit "Could not list directory '"
                              ++ directory_path ++ lit "': " ++ exn_text e];
                  written := [] |}
      else Raise e
  | Return walker =>
      match scan_walk (report_per_file || write_report) walker with
      | Raise e => Raise e
      | Return st =>
          let reports :=
            if write_report
            then write_reports (per_file_results st) directory_path recursive
            else ([], []) in
          Return {| returned :=
                      if report_per_file
                      then TotalsAndTable (totals st).1 (totals st).2
                             (per_file_results st)
                      else Totals (totals st).1 (totals st).2;
                    printed := scan_printed st ++ reports.2;
                    written := reports.1 |}
      end
  end.

End Walker.

(** The sum of the per-file totals a table records. *)
Definition table_sum (results : table) : Z * Z :=
  pair_sum ((λ kv : str * (list str * (Z * Z)), kv.2.2) <$> map_to_list results).

(** [directory_path] names a well-formed tree, or nothing. *)
Definition well_formed_target (target : option node) : Prop :=
  match target with
  | Some n => well_formed n
  | None => True
  end.

(** No report is refused. *)
Definition no_write_error (path : str) : option str := None.

(** What a call wrote and the totals it returned, when it returned. *)
Definition written_by (o : outcome run) : list (str * str) :=
  match o with
  | Return r => written r
  | Raise _ => []
  end.

Definition totals_of (o : outcome run) : option (Z * Z) :=
  match o with
  | Return {| returned := Totals obt pos |}
  | Return {| returned := TotalsAndTable obt pos _ |} => Some (obt, pos)
  | Raise _ => None
  end.

(** The directory of the repository's test: [a.py] with 4/5 and 1/1,
    [b.py] with 2/2. *)
Definition homework : node :=
  Dir true
    [ (lit "a.py",
       File true (nl ++ lit "# starter" ++ nl ++ lit "### Grading: 4/5" ++ nl
                  ++ lit "### Grading: 1/1" ++ nl));
      (lit "b.py",
       File true (nl ++ lit "# another" ++ nl ++ lit "### Grading: 2/2"
                  ++ nl)) ].

(** A directory with a graded file and a file saved in Latin-1. *)
Definition mixed_homework : node :=
  Dir true
    [ (lit "good.py", File true (lit "### Grading: 1/1" ++ nl));
      (lit "essay.py", latin1_file) ].

(** A directory without any file named [*.py]. *)
Definition notes_only : node :=
  Dir true [ (lit "notes.txt", File true (lit "nothing to grade" ++ nl)) ].

(** ** The summary *)

(** The summary writer of section 4.5 of the specification is not part
    of [assemble_grading_comments.py]: the function has no [write_summary]
    argument and the module no [SUMMARY_FILE_NAME]; only the tests name
    them.  The definitions of this part follow the specification.  The
    writer is handed the table of the walker, as the specification's
    control flow says, and emits the header and then one row per visited
    directory: the directory's label, and its roll-up totals. *)

(** Modelled from the spec: the header of the summary, the first line of
    the file the absent summary writer writes. *)
Definition SUMMARY_HEADER : str := lit "Directory,TotalObtained,TotalPossible".

(** Modelled from the spec: a row of the summary of the absent summary
    writer. *)
Record row := {
  row_directory : str;  (** the visited directory, as the walk names it *)
  row_label : str;      (** the first column *)
  row_totals : Z * Z
}.

(** Modelled from the spec: the totals recorded for the file at [path]. *)
Definition file_totals (results : table) (path : str) : Z * Z :=
  match results !! path with
  | Some (_, score) => score
  | None => (0, 0)%Z
  end.

(** Modelled from the spec: "that directory's own files' totals", the
    flat total of a visited directory. *)
Definition own_totals (results : table) (item : walk_item) : Z * Z :=
  pair_sum ((λ f : str * node, file_totals results (join item.1.1 f.1)) <$>
            List.filter (λ f : str * node, endswith (lit ".py") f.1) item.2).

(** Modelled from the spec: the roll-up total, "that directory's own
    files' totals plus the roll-up totals" of its subdirectories. *)
Fixpoint rollup (results : table) (top : str) (target : node) : Z * Z :=
  match target with
  | Dir true entries =>
      pair_add
        (own_totals results
           (top, (List.filter is_dir entries).*1, List.filter is_file entries))
        ((fix subdirs (es : list (str * node)) : Z * Z :=
            match es with
            | [] => (0, 0)%Z
            | (name, n) :: es' =>
                pair_add (rollup results (join top name) n) (subdirs es')
            end) entries)
  | _ => (0, 0)%Z
  end.

(** Modelled from the spec: the directories a recursive scan visits,
    top-down, each with its path relative to the scan root ([None] for
    the root itself), its path, and the directory. *)
Fixpoint visited (relative : option str) (top : str) (target : node)
  : list (option str * str * node) :=
  match target with
  | Dir true entries =>
      (relative, top, target) ::
      (fix subdirs (es : list (str * node)) : list (option str * str * node) :=
         match es with
         | [] => []
         | (name, n) :: es' =>
             visited
               (Some match relative with
                     | None => name
                     | Some rel => join rel name
                     end)
               (join top name) n
             ++ subdirs es'
         end) entries
  | _ => []
  end.

(** Modelled from the spec: the row of a visited directory.  Its label
    is the relative path, and the base name of the scan root for the root
    itself; its totals are the roll-up totals. *)
Definition summary_row (results : table) (directory_path : str)
    (v : option str * str * node) : row :=
  {| row_directory := v.1.2;
     row_label := match v.1.1 with
                  | None => basename directory_path
                  | Some rel => rel
                  end;
     row_totals := rollup results v.1.2 v.2 |}.

(** Modelled from the spec: one row per visited directory. *)
Definition summary_rows (results : table) (directory_path : str)
    (target : node) : list row :=
  summary_row results directory_path <$> visited None directory_path target.

(** Modelled from the spec: one line of the CSV file. *)
Definition row_line (r : row) : str :=
  row_label r ++ lit "," ++ str_of_Z (row_totals r).1 ++ lit ","
  ++ str_of_Z (row_totals r).2.

(** Modelled from the spec: the lines of the summary of a recursive scan
    of [directory_path]. *)
Definition summary_lines (results : table) (directory_path : str)
    (target : option node) : list str :=
  SUMMARY_HEADER ::
  (row_line <$> match target with
                | Some n => summary_rows results directory_path n
                | None => []
                end).


(** The table of a finished call, empty when it returned none. *)
Definition table_of (o : outcome run) : table :=
  match o with
  | Return {| returned := TotalsAndTable _ _ results |} => results
  | _ => ∅
  end.


(** The tree of the repository's test of the summary: [topdir] with
    [t.py] (1/2), [sub] with [s.py] (2/3), [sub/subsub] with [ss.py]
    (3/4). *)
Definition topdir : node :=
  Dir true
    [ (lit "t.py", File true (lit "### Grading: 1/2" ++ nl));
      (lit "sub",
       Dir true
         [ (lit "s.py", File true (lit "### Grading: 2/3" ++ nl));
           (lit "subsub",
            Dir true
              [ (lit "ss.py", File true (lit "### Grading: 3/4" ++ nl)) ]) ]) ].


(** The tree of the repository's other test of the summary: [top] with
    [file_top.py] (1/2), [sub1] with [f1.py] (2/3), [sub2] with [f2.py]
    (3/4), [sub2/subsub] with [f3.py] (4/5). *)
Definition top_tree : node :=
  Dir true
    [ (lit "file_top.py", File true (lit "### Grading: 1/2" ++ nl));
      (lit "sub1",
       Dir true [ (lit "f1.py", File true (lit "### Grading: 2/3" ++ nl)) ]);
      (lit "sub2",
       Dir true
         [ (lit "f2.py", File true (lit "### Grading: 3/4" ++ nl));
           (lit "subsub",
            Dir true
              [ (lit "f3.py", File true (lit "### Grading: 4/5" ++ nl)) ]) ]) ].

(** ** Further notions *)

(** [GRADING_MARKER in c] *)
Definition has_marker (c : str) : bool :=
  match find GRADING_MARKER c with
  | Some _ => true
  | None => false
  end.

(** The decimal digits of a number as [str] prints them. *)
Fixpoint uint_digits (u : Decimal.uint) : list N :=
  match u with
  | Decimal.Nil => []
  | Decimal.D0 u' => 0 :: uint_digits u'
  | Decimal.D1 u' => 1 :: uint_digits u'
  | Decimal.D2 u' => 2 :: uint_digits u'
  | Decimal.D3 u' => 3 :: uint_digits u'
  | Decimal.D4 u' => 4 :: uint_digits u'
  | Decimal.D5 u' => 5 :: uint_digits u'
  | Decimal.D6 u' => 6 :: uint_digits u'
  | Decimal.D7 u' => 7 :: uint_digits u'
  | Decimal.D8 u' => 8 :: uint_digits u'
  | Decimal.D9 u' => 9 :: uint_digits u'
  end.

(** The comment of a score as a grader writes it: the marker, a blank,
    and the two numbers around a slash. *)
Definition score_comment (obtained possible : Z) : str :=
  GRADING_MARKER ++ [32] ++ str_of_Z obtained ++ [47] ++ str_of_Z possible.


(** The text [s] does not go on with a digit. *)
Definition no_digit_ahead (py : runtime) (s : str) : Prop :=
  match s with
  | [] => True
  | x :: _ => isdecimal py x = false
  end.

(** The line [line'] is [line] with blanks put before and after it. *)
Definition padded (line line' : str) : Prop :=
  ∃ w1 w2, Forall (λ x, isspace x = true) w1
           ∧ Forall (λ x, isspace x = true) w2
           ∧ line' = w1 ++ line ++ w2.

(** The walk of a call; [None] when the directory of a call that is not
    recursive cannot be listed. *)
Definition walker_of (directory_path : str) (target : option node)
    (recursive : bool) : option (list walk_item) :=
  if recursive then
    Some match target with
         | Some n => os_walk directory_path n
         | None => []
         end
  else
    match list_files directory_path target with
    | Return files => Some [(directory_path, [], files)]
    | Raise _ => None
    end.

(** The files a call opens when none of them stops it, in the order it
    opens them, each with the path it is opened under. *)
Definition scanned_files (directory_path : str) (target : option node)
    (recursive : bool) : list (str * node) :=
  processed (default [] (walker_of directory_path target recursive)).


(** What the flags of the call do not touch in a scan: the totals and
    the output. *)
Definition scan_summary (o : outcome scan) : outcome (Z * Z * list str) :=
  match o with
  | Return st => Return (totals st, scan_printed st)
  | Raise e => Raise e
  end.



(** The comments of one processed file, none if reading it raises. *)
Definition file_comments (pf : str * node) : list str :=
  match (extract_grading_comments_from_file pf.1
           (open_file pf.1 (Some pf.2))).1 with
  | Return comments => comments
  | Raise _ => []
  end.



(** The directories that get a report, in the order of the reports. *)
Definition report_dirs (results : table) (directory_path : str)
    (recursive : bool) : list str :=
  sorted (elements (dirs_to_report results directory_path recursive)).

(** The report of [d] as it is written: its path and its text. *)
Definition report_of (results : table) (d : str) : str * str :=
  (join d REPORT_FILE_NAME, concat (report results d)).


(** ** directory_demo *)

(** [str(b)] *)
Definition str_of_bool (b : bool) : str :=
  if b then lit "True" else lit "False".

(** [", ".join(l)] *)
Fixpoint join_comma (l : list str) : str :=
  match l with
  | [] => []
  | [s] => s
  | s :: r => s ++ lit ", " ++ join_comma r
  end.

(** [str(t)] of a pair of integers *)
Definition str_of_pair (t : Z * Z) : str :=
  lit "(" ++ str_of_Z t.1 ++ lit ", " ++ str_of_Z t.2 ++ lit ")".

(** How a demo ends: with what it printed and wrote, with the exception
    of the call, or with the [ValueError] of an assignment of three
    values to two names. *)
Inductive demo :=
  | Done (output : list str) (files : list (str * str))
  | Stopped (e : exn)
  | TooManyValues.

Section Demo.

Variable py : runtime.
Variable write_error : str → option str.

(** [repr] of a string.  Its quotes and escapes follow the interpreter's
    table of the printable characters; nothing here depends on them. *)
Variable repr : str → str.

(** [str(l)] of a list of strings *)
Definition str_of_list (l : list str) : str :=
  lit "[" ++ join_comma (repr <$> l) ++ lit "]".

Definition totals_line (directory_path : str) (recursive : bool)
    (obtained possible : Z) : str :=
  lit "Directory totals for '" ++ directory_path ++ lit "' (recursive="
  ++ str_of_bool recursive ++ lit "): " ++ str_of_Z obtained ++ lit " / "
  ++ str_of_Z possible.

(** The body of the loop [for path, (obt, pos) in sorted(per_file.items())].
    The target takes the value of the table apart: [obt] is the list of
    the comments and [pos] the pair of the totals. *)
Definition breakdown_line (per_file : table) (path : str) : list str :=
  match per_file !! path with
  | Some (obt, pos) =>
      [lit "  " ++ path ++ lit ": " ++ str_of_list obt ++ lit " / "
       ++ str_of_pair pos]
  | None => []
  end.

(** The items of a table have different paths: [sorted] puts them in
    the order of the paths and never compares two values. *)
Definition directory_demo (directory_path : str) (target : option node)
    (recursive report_per_file write_report : bool) : demo :=
  if report_per_file then
    match compute_totals_in_directory py write_error directory_path target
            recursive true write_report with
    | Raise e => Stopped e
    | Return r =>
        let '(obtained, possible, per_file) :=
          match returned r with
          | TotalsAndTable obt pos results => (obt, pos, results)
          | Totals obt pos => (obt, pos, ∅)
          end in
        Done (printed r
              ++ [totals_line directory_path recursive obtained possible;
                  lit "Per-file breakdown:"]
              ++ (sorted (elements (dom per_file))
                    ≫= breakdown_line per_file))
             (written r)
    end
  else
    match (if write_report
           then compute_totals_in_directory py write_error directory_path
                  target recursive false true
           else compute_totals_in_directory py write_error directory_path
                  target recursive false false) with
    | Raise e => Stopped e
    | Return r =>
        match returned r with
        | Totals obtained possible =>
            Done (printed r
                  ++ [totals_line directory_path recursive obtained possible])
                 (written r)
        | TotalsAndTable _ _ _ => TooManyValues
        end
    end.


End Demo.

(** ** Sample directories *)


(** [repr] of a string of letters, digits and signs other than the
    quote and the backslash: the string between two quotes. *)
Definition quoted (s : str) : str := [39] ++ s ++ [39].
(** * Properties *)

(** ** The pattern and the scan *)

Section Aggregator.

Variable py : runtime.

Implicit Types (s d : str) (k : category) (p : list item).

Lemma space_not_decimal c : isspace c = true → isdecimal py c = false.
Proof. intros H. unfold isdecimal. by rewrite (decimal_not_space py c H). Qed.

Lemma decimal_is_not_space c : isdecimal py c = true → isspace c = false.
Proof.
  intros H. destruct (isspace c) eqn:E; [|done].
  by rewrite (space_not_decimal c E) in H.
Qed.

Lemma ascii_not_decimal c :
  c < 48 → isdecimal py c = false.
Proof.
  intros H. unfold isdecimal. rewrite decimal_ascii by lia.
  destruct (48 <=? c) eqn:E; [apply N.leb_le in E; lia|done].
Qed.

Lemma in_category_not_hash k c : in_category py k c = true → c ≠ 35.
Proof.
  intros H ->. destruct k; simpl in H; [done|].
  by rewrite ascii_not_decimal in H.
Qed.

Lemma try_counts_none {R} (K : nat → option R) min n :
  (∀ i, (i ≤ n)%nat → K i = None) → try_counts K min n = None.
Proof.
  induction n as [|n IH]; intros H; simpl.
  - by rewrite H.
  - rewrite H by lia. destruct (n <? min)%nat; [done|]. apply IH.
    intros i Hi. apply H. lia.
Qed.

Lemma try_counts_greedy {R} (K : nat → option R) min n :
  (∀ i, (i < n)%nat → K i = None) → try_counts K min n = K n.
Proof.
  intros H. destruct n as [|n]; simpl.
  - by destruct (K 0%nat).
  - destruct (K (S n)); [done|]. destruct (n <? min)%nat; [done|].
    apply try_counts_none. intros i Hi. apply H. lia.
Qed.

Lemma run_length_head k s i :
  (i < run_length py k s)%nat →
  ∃ c r, drop i s = c :: r ∧ in_category py k c = true.
Proof.
  revert i. induction s as [|c s IH]; intros i Hi; simpl in Hi; [lia|].
  destruct (in_category py k c) eqn:E; [|lia].
  destruct i as [|i]; [by exists c, s|].
  simpl. apply IH. lia.
Qed.

Lemma run_length_take k s :
  Forall (λ c, in_category py k c = true) (take (run_length py k s) s).
Proof.
  induction s as [|c s IH]; simpl; [constructor|].
  destruct (in_category py k c) eqn:E; simpl; [by constructor|constructor].
Qed.

Lemma lstrip_run s : lstrip s = drop (run_length py CategorySpace s) s.
Proof.
  induction s as [|c s IH]; simpl; [done|]. by destruct (isspace c).
Qed.

Lemma leading_digits_run s :
  leading_digits py s = take (run_length py CategoryDigit s) s.
Proof.
  induction s as [|c s IH]; simpl; [done|].
  destruct (isdecimal py c); simpl; [by rewrite IH|done].
Qed.

Lemma length_leading_digits s :
  length (leading_digits py s) = run_length py CategoryDigit s.
Proof.
  induction s as [|c s IH]; simpl; [done|].
  destruct (isdecimal py c); simpl; [by rewrite IH|done].
Qed.

(** A greedy repetition whose continuation cannot start inside the run
    takes the whole run: nothing is found by backtracking. *)
Lemma match_repeat_greedy capture k min p s :
  (∀ c r, in_category py k c = true → match_here py p (c :: r) = None) →
  match_here py (Repeat capture k min :: p) s =
    let n := run_length py k s in
    if (n <? min)%nat then None
    else match match_here py p (drop n s) with
         | Some (groups, rest) =>
             Some (if capture then take n s :: groups else groups, rest)
         | None => None
         end.
Proof.
  intros H. simpl. destruct (_ <? _)%nat; [done|].
  rewrite try_counts_greedy; [done|].
  intros i Hi. destruct (run_length_head _ _ _ Hi) as (c & r & -> & Hc).
  by rewrite H.
Qed.

Lemma match_repeat_last capture k min s :
  match_here py [Repeat capture k min] s =
    let n := run_length py k s in
    if (n <? min)%nat then None
    else Some (if capture then [take n s] else [], drop n s).
Proof.
  simpl. destruct (_ <? _)%nat; [done|].
  by destruct (run_length py k s).
Qed.

Lemma match_escape m p s :
  match_here py (escape m ++ p) s =
    if startswith m s then match_here py p (drop (length m) s) else None.
Proof.
  revert s. induction m as [|a m IH]; intros s; [done|].
  destruct s as [|x s]; [done|]. simpl.
  rewrite (N.eqb_sym a x). destruct (x =? a); [apply IH|done].
Qed.

Lemma run_length_le k s : (run_length py k s ≤ length s)%nat.
Proof. induction s as [|c s IH]; simpl; [|case_match]; lia. Qed.

Lemma length_take_run k s :
  length (take (run_length py k s) s) = run_length py k s.
Proof. rewrite length_take. pose proof (run_length_le k s). lia. Qed.

Lemma match_digits_last s :
  match_here py [Repeat true CategoryDigit 1] s =
    match leading_digits py s with
    | [] => None
    | possible => Some ([possible], drop (length possible) s)
    end.
Proof.
  rewrite match_repeat_last, leading_digits_run. simpl.
  destruct s as [|c s]; [done|]. simpl.
  destruct (isdecimal py c); [|done]. simpl.
  by rewrite length_take_run.
Qed.

(** No digit group starts at a blank, and neither a blank nor a digit is
    the slash: the three facts that make the greedy choices final. *)
Lemma digits_reject_space capture p c r :
  isspace c = true →
  match_here py (Repeat capture CategoryDigit 1 :: p) (c :: r) = None.
Proof. intros H. simpl. by rewrite (space_not_decimal c H). Qed.

Lemma slash_rejects k p c r :
  in_category py k c = true → match_here py (Literal 47 :: p) (c :: r) = None.
Proof.
  intros H. simpl. destruct (N.eqb_spec c 47) as [->|]; [|done].
  destruct k; simpl in H; [done|]. by rewrite ascii_not_decimal in H.
Qed.

Lemma spaces_slash_reject_digit p c r :
  isdecimal py c = true →
  match_here py (Repeat false CategorySpace 0 :: Literal 47 :: p) (c :: r)
  = None.
Proof.
  intros H. rewrite match_repeat_greedy.
  - cbn [run_length in_category]. rewrite (decimal_is_not_space c H).
    cbn [Nat.ltb Nat.leb drop].
    by rewrite (slash_rejects CategoryDigit p c r H).
  - intros c' r' Hc'. by apply (slash_rejects CategorySpace).
Qed.

Lemma match_literal c p x s :
  match_here py (Literal c :: p) (x :: s) =
    if x =? c then match_here py p s else None.
Proof. reflexivity. Qed.

Lemma match_score_items s :
  match_here py score_items s =
    let after_marker := lstrip s in
    let obtained := leading_digits py after_marker in
    match obtained, lstrip (drop (length obtained) after_marker) with
    | _ :: _, c :: after_slash =>
        if c =? 47 then
          match leading_digits py (lstrip after_slash) with
          | [] => None
          | possible =>
              Some ([obtained; possible],
                    drop (length possible) (lstrip after_slash))
          end
        else None
    | _, _ => None
    end.
Proof.
  unfold score_items.
  rewrite match_repeat_greedy by (intros; by apply digits_reject_space).
  cbn zeta. cbn [Nat.ltb Nat.leb]. rewrite <- lstrip_run.
  generalize (lstrip s). clear s. intros s.
  rewrite match_repeat_greedy by (intros; by apply spaces_slash_reject_digit).
  cbn zeta. rewrite <- leading_digits_run, <- length_leading_digits.
  destruct (leading_digits py s) as [|c o]; [done|].
  cbn [length Nat.ltb Nat.leb].
  rewrite match_repeat_greedy by (intros; by apply (slash_rejects CategorySpace)).
  cbn zeta. cbn [Nat.ltb Nat.leb]. rewrite <- lstrip_run.
  destruct (lstrip (drop (S (length o)) s)) as [|x s3]; [done|].
  rewrite match_literal. destruct (x =? 47); [|done].
  rewrite match_repeat_greedy by (intros; by apply digits_reject_space).
  cbn zeta. cbn [Nat.ltb Nat.leb]. rewrite <- lstrip_run.
  rewrite match_digits_last.
  by destruct (leading_digits py (lstrip s3)).
Qed.

Lemma match_pattern s :
  match_here py pattern s =
    if startswith GRADING_MARKER s
    then match_here py score_items (drop (length GRADING_MARKER) s)
    else None.
Proof. apply match_escape. Qed.

(** The pattern matches at the head of [s] exactly when an occurrence in
    the specification's sense starts there, with the same two groups. *)
Lemma match_pattern_groups s :
  fst <$> match_here py pattern s =
  groups_of <$> score_pair_at py s.
Proof.
  rewrite match_pattern. unfold score_pair_at.
  destruct (startswith GRADING_MARKER s); [|done].
  rewrite match_score_items. cbn zeta.
  destruct (leading_digits py _) as [|c o]; [done|].
  destruct (lstrip (drop (length (c :: o)) _)) as [|x s3]; [done|].
  destruct (x =? 47); [|done].
  by destruct (leading_digits py (lstrip s3)).
Qed.

Lemma startswith_app m s : startswith m s = true → s = m ++ drop (length m) s.
Proof.
  revert s. induction m as [|a m IH]; intros [|x s] H; try done.
  simpl in H. apply andb_true_iff in H as [->%N.eqb_eq H].
  simpl. f_equal. by apply IH.
Qed.

Lemma lstrip_split s : ∃ pre, s = pre ++ lstrip s ∧ Forall (λ c, c ≠ 35) pre.
Proof.
  exists (take (run_length py CategorySpace s) s). split.
  - by rewrite lstrip_run, take_drop.
  - eapply Forall_impl; [apply run_length_take|].
    intros c Hc. by apply (in_category_not_hash CategorySpace).
Qed.

Lemma leading_digits_split s :
  s = leading_digits py s ++ drop (length (leading_digits py s)) s
  ∧ Forall (λ c, c ≠ 35) (leading_digits py s).
Proof.
  split.
  - by rewrite length_leading_digits, leading_digits_run, take_drop.
  - rewrite leading_digits_run.
    eapply Forall_impl; [apply run_length_take|].
    intros c Hc. by apply (in_category_not_hash CategoryDigit).
Qed.

(** What a match covers: the marker, then characters none of which is
    the [#] a marker starts with. *)
Lemma match_pattern_region s groups rest :
  match_here py pattern s = Some (groups, rest) →
  ∃ mid, s = GRADING_MARKER ++ mid ++ rest ∧ Forall (λ c, c ≠ 35) mid.
Proof.
  rewrite match_pattern. destruct (startswith GRADING_MARKER s) eqn:Em; [|done].
  apply startswith_app in Em. revert Em.
  generalize (drop (length GRADING_MARKER) s). intros s0 ->.
  rewrite match_score_items. cbn zeta.
  destruct (lstrip_split s0) as (w1 & E1 & F1).
  destruct (leading_digits_split (lstrip s0)) as [E2 F2].
  destruct (leading_digits py (lstrip s0)) as [|c o] eqn:Eo; [done|].
  destruct (lstrip_split (drop (length (c :: o)) (lstrip s0))) as (w2 & E3 & F3).
  destruct (lstrip (drop (length (c :: o)) (lstrip s0))) as [|x s3]; [done|].
  destruct (N.eqb_spec x 47) as [->|]; [|done].
  destruct (lstrip_split s3) as (w3 & E4 & F4).
  destruct (leading_digits_split (lstrip s3)) as [E5 F5].
  destruct (leading_digits py (lstrip s3)) as [|c' o'] eqn:Eo'; [done|].
  intros [= <- <-].
  exists (w1 ++ (c :: o) ++ w2 ++ [47] ++ w3 ++ (c' :: o')). split.
  - f_equal. rewrite E1 at 1. rewrite E2 at 1. rewrite E3 at 1.
    rewrite E4 at 1. rewrite E5 at 1. by rewrite <- !app_assoc.
  - rewrite !Forall_app. repeat split; try done. by repeat constructor.
Qed.

Lemma marker_codes :
  GRADING_MARKER = [35; 35; 35; 32; 71; 114; 97; 100; 105; 110; 103; 58].
Proof. reflexivity. Qed.

(** No marker starts inside a match, other than the one it starts with. *)
Lemma no_marker_inside mid rest j :
  Forall (λ c, c ≠ 35) mid →
  (0 < j < length GRADING_MARKER + length mid)%nat →
  startswith GRADING_MARKER (drop j (GRADING_MARKER ++ mid ++ rest)) = false.
Proof.
  intros F Hj. rewrite marker_codes in *.
  destruct j as [|j]; [lia|].
  do 11 (destruct j as [|j]; [reflexivity|]).
  cbn [drop app length] in *.
  rewrite drop_app_le by lia.
  destruct (drop j mid) as [|c r] eqn:E.
  { apply (f_equal length) in E. rewrite length_drop in E. simpl in E. lia. }
  assert (c ≠ 35) as Hc.
  { apply (proj1 (Forall_forall _ _) F).
    rewrite <- (take_drop j mid), E. apply elem_of_app. right. left. }
  cbn [app startswith]. destruct (N.eqb_spec 35 c); [congruence|done].
Qed.

(** [findall] reports the occurrences at all positions: skipping over a
    match loses none. *)
Lemma findall_from_score_pairs s skip :
  (∀ j, (j < skip)%nat → score_pair_at py (drop j s) = None) →
  (skip ≤ length s)%nat →
  findall_from py pattern s skip = groups_of <$> score_pairs py s.
Proof.
  revert skip. induction s as [|c s IH]; intros skip Hnone Hlen.
  - simpl in Hlen. replace skip with 0%nat by lia. reflexivity.
  - destruct skip as [|k].
    + cbn [findall_from score_pairs].
      pose proof (match_pattern_groups (c :: s)) as G.
      destruct (match_here py pattern (c :: s)) as [[g rest]|] eqn:M;
        destruct (score_pair_at py (c :: s)) as [pr|]; try done.
      * injection G as ->. cbn [app fmap list_fmap]. f_equal.
        destruct (match_pattern_region _ _ _ M) as (mid & E & F).
        apply IH.
        -- intros j Hj. unfold score_pair_at.
           change (drop j s) with (drop (S j) (c :: s)). rewrite E.
           rewrite no_marker_inside; [done|done|].
           apply (f_equal length) in E. rewrite !length_app in E.
           simpl in *. lia.
        -- simpl. lia.
      * apply IH; [intros; lia|lia].
    + cbn [findall_from score_pairs].
      pose proof (Hnone 0%nat ltac:(lia)) as H0. cbn [drop] in H0. rewrite H0.
      apply IH; [|simpl in Hlen; lia].
      intros j Hj. apply (Hnone (S j)). lia.
Qed.

Lemma findall_score_pairs s :
  findall py pattern s = groups_of <$> score_pairs py s.
Proof. apply findall_from_score_pairs; [lia|lia]. Qed.

(** ** [int] on a digit group *)

Lemma mapM_decimal d :
  Forall (λ c, isdecimal py c = true) d →
  mapM (decimal py) d = Some (map (λ c, default 0 (decimal py c)) d).
Proof.
  induction 1 as [|c d Hc _ IH]; [done|].
  cbn [mapM map]. rewrite IH. unfold isdecimal in Hc.
  by destruct (decimal py c).
Qed.

Lemma py_int_digits d :
  d ≠ [] → Forall (λ c, isdecimal py c = true) d →
  py_int py d =
    if exceeds_limit py (length d) then None else Some (digits_value py d).
Proof.
  intros Hd F. unfold py_int, digits_value. rewrite (mapM_decimal d F).
  destruct d as [|c d]; [done|]. cbn [map length]. by rewrite length_map.
Qed.

Lemma of_digits_nonneg ds : (0 ≤ of_digits ds)%Z.
Proof.
  unfold of_digits.
  assert (∀ acc, 0 ≤ acc → 0 ≤ fold_left (λ acc x, acc * 10 + Z.of_N x) ds acc)%Z
    as H; [|by apply H].
  induction ds as [|x ds IH]; intros acc Hacc; [done|].
  simpl. apply IH. lia.
Qed.

Lemma py_int_nonneg d v : py_int py d = Some v → (0 ≤ v)%Z.
Proof.
  unfold py_int. destruct (mapM _ d) as [[|x ds]|]; try done.
  destruct (exceeds_limit _ _); [done|]. intros [= <-]. apply of_digits_nonneg.
Qed.

(** ** The loops as sums *)

Lemma pair_add_assoc a b c : pair_add (pair_add a b) c = pair_add a (pair_add b c).
Proof. unfold pair_add. simpl. f_equal; lia. Qed.

Lemma pair_add_zero_r a : pair_add a (0, 0)%Z = a.
Proof. destruct a. unfold pair_add. simpl. f_equal; lia. Qed.

Lemma pair_add_zero_l a : pair_add (0, 0)%Z a = a.
Proof. by destruct a. Qed.

Lemma pair_sum_app l1 l2 :
  pair_sum (l1 ++ l2) = pair_add (pair_sum l1) (pair_sum l2).
Proof.
  induction l1 as [|a l1 IH]; simpl; [by rewrite pair_add_zero_l|].
  unfold pair_sum in *. simpl. by rewrite IH, pair_add_assoc.
Qed.

Lemma leading_digits_decimal s :
  Forall (λ c, isdecimal py c = true) (leading_digits py s).
Proof. rewrite leading_digits_run. apply (run_length_take CategoryDigit). Qed.

Lemma score_pair_at_digits s pr :
  score_pair_at py s = Some pr → digit_group py pr.1 ∧ digit_group py pr.2.
Proof.
  unfold score_pair_at. destruct (startswith _ _); [|done].
  cbn zeta.
  pose proof (leading_digits_decimal (lstrip (drop (length GRADING_MARKER) s))) as F1.
  destruct (leading_digits py _) as [|c o]; [done|].
  destruct (lstrip (drop (length (c :: o)) _)) as [|x s3]; [done|].
  destruct (x =? 47); [|done].
  pose proof (leading_digits_decimal (lstrip s3)) as F2.
  destruct (leading_digits py (lstrip s3)) as [|c' o']; [done|].
  by intros [= <-].
Qed.

Lemma score_pairs_digits s :
  Forall (λ pr, digit_group py pr.1 ∧ digit_group py pr.2) (score_pairs py s).
Proof.
  induction s as [|c s IH]; cbn [score_pairs].
  - destruct (score_pair_at py []) eqn:E; [|constructor].
    repeat constructor; by apply (score_pair_at_digits []).
  - destruct (score_pair_at py (c :: s)) eqn:E; [|done].
    constructor; [by apply (score_pair_at_digits (c :: s))|done].
Qed.

(** One turn of the inner loop on an occurrence: its value, or nothing
    when [int] refuses one of its groups. *)
Lemma add_match_pair totals pr :
  digit_group py pr.1 → digit_group py pr.2 →
  add_match py totals (groups_of pr) =
    if converts py pr then pair_add totals (pair_value py pr) else totals.
Proof.
  intros [H1 F1] [H2 F2]. unfold add_match, groups_of, converts.
  rewrite (py_int_digits _ H1 F1), (py_int_digits _ H2 F2).
  destruct (exceeds_limit py (length pr.1)); [done|].
  by destruct (exceeds_limit py (length pr.2)).
Qed.

Lemma fold_add_match totals prs :
  Forall (λ pr, digit_group py pr.1 ∧ digit_group py pr.2) prs →
  fold_left (add_match py) (groups_of <$> prs) totals =
  pair_add totals (pair_sum (pair_value py <$> List.filter (converts py) prs)).
Proof.
  intros F. revert totals.
  induction F as [|pr prs [H1 H2] _ IH]; intros totals.
  - by rewrite pair_add_zero_r.
  - cbn [fmap list_fmap fold_left List.filter].
    rewrite IH, (add_match_pair _ _ H1 H2).
    destruct (converts py pr); [|done].
    by rewrite pair_add_assoc.
Qed.

Lemma add_comment_sum totals c :
  add_comment py totals c =
  pair_add totals
    (pair_sum (pair_value py <$> List.filter (converts py) (score_pairs py c))).
Proof.
  unfold add_comment. rewrite findall_score_pairs.
  apply fold_add_match, score_pairs_digits.
Qed.

Lemma fold_add_comment totals comments :
  fold_left (add_comment py) comments totals =
  pair_add totals (sum_of_converted_pairs py comments).
Proof.
  revert totals. induction comments as [|c cs IH]; intros totals.
  - by rewrite pair_add_zero_r.
  - cbn [fold_left]. rewrite IH, add_comment_sum, pair_add_assoc.
    unfold sum_of_converted_pairs. rewrite bind_cons.
    by rewrite List.filter_app, fmap_app, pair_sum_app.
Qed.

(** ** The claims on [compute_score_totals] *)

Lemma compute_score_totals_sum comments :
  compute_score_totals py comments = sum_of_converted_pairs py comments.
Proof.
  unfold compute_score_totals. by rewrite fold_add_comment, pair_add_zero_l.
Qed.

(** C2 (as amended).  For every sequence of strings [compute_score_totals]
    returns the componentwise sum of the integer values of the
    occurrences of the pattern (marker, optional whitespace, digits,
    optional whitespace, [/], optional whitespace, digits) found at any
    position of any string, every occurrence of a string counted, except
    the occurrences with a digit group that [int] refuses for its length,
    which add nothing to either component; for the empty sequence it
    returns (0, 0). *)
Theorem compute_score_totals_sums_converted_pairs :
  (∀ comments : list str,
     compute_score_totals py comments = sum_of_converted_pairs py comments)
  ∧ compute_score_totals py [] = (0, 0)%Z.
Proof. split; [apply compute_score_totals_sum|reflexivity]. Qed.

Lemma converts_unlimited pr :
  int_max_str_digits py = 0%nat → converts py pr = true.
Proof.
  intros H. unfold converts, exceeds_limit. rewrite H. simpl.
  by rewrite !andb_false_r.
Qed.

(** With the limit of [int] switched off every occurrence counts. *)
Lemma compute_score_totals_unlimited comments :
  int_max_str_digits py = 0%nat →
  compute_score_totals py comments = sum_of_all_pairs py comments.
Proof.
  intros H. rewrite compute_score_totals_sum.
  unfold sum_of_converted_pairs, sum_of_all_pairs. do 2 f_equal.
  induction (comments ≫= score_pairs py) as [|pr l IH]; [done|].
  cbn [List.filter]. by rewrite (converts_unlimited pr H), IH.
Qed.

Lemma add_match_nonnegative t m : nonnegative t → nonnegative (add_match py t m).
Proof.
  intros [H1 H2]. unfold add_match.
  destruct m as [|o [|q [|]]]; try done.
  destruct (py_int py o) as [obt|] eqn:Eo; [|done].
  destruct (py_int py q) as [pos|] eqn:Ep; [|done].
  apply py_int_nonneg in Eo, Ep. split; simpl; lia.
Qed.

Lemma fold_add_match_nonnegative ms t :
  nonnegative t → nonnegative (fold_left (add_match py) ms t).
Proof.
  revert t. induction ms as [|m ms IH]; intros t Ht; [done|].
  apply IH. by apply add_match_nonnegative.
Qed.

Lemma compute_score_totals_nonnegative comments :
  nonnegative (compute_score_totals py comments).
Proof.
  unfold compute_score_totals.
  assert (nonnegative (0, 0)%Z) as H0 by (split; done).
  revert H0. generalize (0, 0)%Z.
  induction comments as [|c cs IH]; intros t Ht; [done|].
  apply IH. by apply fold_add_match_nonnegative.
Qed.

Lemma add_match_unparsable totals (obtained_str possible_str : str) :
  py_int py obtained_str = None ∨ py_int py possible_str = None →
  add_match py totals [obtained_str; possible_str] = totals.
Proof.
  unfold add_match. intros [-> | ->]; [done|].
  by destruct (py_int py obtained_str).
Qed.

End Aggregator.
(** ** The extractor *)

Section Extractor.

Implicit Types (s line : str).

Lemma length_lstrip s : (length (lstrip s) ≤ length s)%nat.
Proof. induction s as [|c s IH]; simpl; [|case_match; simpl]; lia. Qed.

Lemma lstrip_unchanged s :
  lstrip s = s ↔ match s with [] => True | c :: _ => isspace c = false end.
Proof.
  destruct s as [|c s]; simpl; [done|].
  destruct (isspace c) eqn:E; [|done]. split; [|done].
  intros H. pose proof (length_lstrip s) as L. rewrite H in L. simpl in L. lia.
Qed.

Lemma lstrip_lstrip s : lstrip (lstrip s) = lstrip s.
Proof.
  induction s as [|c s IH]; simpl; [done|].
  destruct (isspace c) eqn:E; [done|]. simpl. by rewrite E.
Qed.

Lemma strip_no_trailing_space s : lstrip (rev (strip s)) = rev (strip s).
Proof. unfold strip, rstrip. rewrite rev_involutive. apply lstrip_lstrip. Qed.

Lemma find_Some sub s i :
  find sub s = Some i → startswith sub (drop i s) = true ∧ (i ≤ length s)%nat.
Proof.
  revert i. induction s as [|c s IH]; intros i; simpl.
  - destruct (startswith sub []) eqn:E; [|done]. by intros [= <-].
  - destruct (startswith sub (c :: s)) eqn:E.
    + intros [= <-]. split; [done|lia].
    + destruct (find sub s) as [j|]; [|done]. intros [= <-].
      destruct (IH j eq_refl). split; [done|simpl; lia].
Qed.

Lemma startswith_marker s :
  startswith GRADING_MARKER s = true → ∃ r, s = 35 :: r.
Proof.
  destruct s as [|c r]; [done|]. rewrite marker_codes. cbn [startswith].
  intros [<-%N.eqb_eq _]%andb_true_iff. by exists r.
Qed.

(** From the marker on, a stripped line has nothing left to strip. *)
Lemma strip_from_marker line i :
  find GRADING_MARKER (strip line) = Some i →
  strip (drop i (strip line)) = drop i (strip line).
Proof.
  intros [Hm Hi]%find_Some.
  destruct (startswith_marker _ Hm) as [r Hr].
  unfold strip at 1. rewrite Hr at 1. cbn [lstrip isspace]. simpl.
  rewrite <- Hr. unfold rstrip.
  enough (lstrip (rev (drop i (strip line))) = rev (drop i (strip line)))
    as -> by apply rev_involutive.
  apply lstrip_unchanged.
  pose proof (proj1 (lstrip_unchanged _) (strip_no_trailing_space line)) as H.
  rewrite <- (take_drop i (strip line)) in H. rewrite rev_app_distr in H.
  rewrite Hr in *. destruct (rev (35 :: r)) as [|c t] eqn:E; [done|].
  exact H.
Qed.

Lemma keep_comment_marker_text comments line :
  keep_comment comments line =
    comments ++ match marker_text line with Some c => [c] | None => [] end.
Proof.
  unfold keep_comment, marker_text.
  destruct (strip line) as [|c t] eqn:E.
  - simpl. by rewrite app_nil_r.
  - rewrite <- E. destruct (find GRADING_MARKER (strip line)) as [i|] eqn:F.
    + rewrite (strip_from_marker _ _ F). reflexivity.
    + simpl. by rewrite app_nil_r.
Qed.

(** The loop over the lines keeps the marker lines, in their order. *)
Lemma fold_keep_comment comments file_lines :
  fold_left keep_comment file_lines comments =
    comments ++ omap marker_text file_lines.
Proof.
  revert comments. induction file_lines as [|l ls IH]; intros comments.
  - simpl. by rewrite app_nil_r.
  - cbn [fold_left omap list_omap]. rewrite IH, keep_comment_marker_text.
    rewrite <- app_assoc. destruct (marker_text l); reflexivity.
Qed.

Lemma marker_text_starts line c :
  marker_text line = Some c → c ≠ [] ∧ startswith GRADING_MARKER c = true.
Proof.
  unfold marker_text. destruct (find _ _) as [i|] eqn:F; [|done].
  intros [= <-]. apply find_Some in F as [Hm _]. split; [|done].
  by destruct (startswith_marker _ Hm) as [r ->].
Qed.

Lemma omap_marker_text_starts file_lines :
  Forall (λ c, c ≠ [] ∧ startswith GRADING_MARKER c = true)
    (omap marker_text file_lines).
Proof.
  induction file_lines as [|l ls IH]; [constructor|]. cbn [omap list_omap].
  destruct (marker_text l) eqn:E; [|done].
  constructor; [by apply (marker_text_starts l)|done].
Qed.

Lemma extract_returns file_name r comments out :
  extract_grading_comments_from_file file_name r = (Return comments, out) →
  comments = omap marker_text (lines r).
Proof.
  unfold extract_grading_comments_from_file. rewrite fold_keep_comment.
  destruct (failure r) as [[]|]; by intros [= <- _].
Qed.

(** What the extractor raises is no [OSError]: the handler of the walker
    around the call is never entered. *)
Lemma extract_raises file_name r e out :
  extract_grading_comments_from_file file_name r = (Raise e, out) →
  is_OSError e = false.
Proof.
  unfold extract_grading_comments_from_file.
  destruct (failure r) as [[]|]; by intros [= <- _].
Qed.

(** A file that cannot be opened: a diagnostic and no comments. *)
Lemma extract_cannot_open file_name r :
  lines r = [] → (∃ e, failure r = Some e ∧ is_OSError e = true) →
  ∃ diagnostic,
    extract_grading_comments_from_file file_name r = (Return [], [diagnostic]).
Proof.
  intros Hl (e & He & Ho). unfold extract_grading_comments_from_file.
  rewrite Hl, He. destruct e; try done; by eexists.
Qed.

(** C9.  Every string the extractor returns is non-empty and begins with
    the marker token, and the strings are the marker lines of the file in
    the order of the file: line by line, the text from the marker on. *)
Theorem extracted_comments_are_marker_lines file_name r comments out :
  extract_grading_comments_from_file file_name r = (Return comments, out) →
  Forall (λ c, c ≠ [] ∧ startswith GRADING_MARKER c = true) comments
  ∧ comments = omap marker_text (lines r).
Proof.
  intros ->%extract_returns. split; [apply omap_marker_text_starts|done].
Qed.

End Extractor.

(** Witness of C9: a file with two marker lines, one after code with blanks
    around it and a CRLF line end, one indented. *)
Lemma extracted_comments_are_marker_lines_witness :
  extract_grading_comments_from_file (lit "a.py")
    (open_file (lit "a.py") (Some two_marker_file))
  = (Return [lit "### Grading: 1/2"; lit "### Grading: 3/4"], [])
  ∧ Forall (λ c, c ≠ [] ∧ startswith GRADING_MARKER c = true)
      [lit "### Grading: 1/2"; lit "### Grading: 3/4"]
  ∧ [lit "### Grading: 1/2"; lit "### Grading: 3/4"]
    = omap marker_text (lines (open_file (lit "a.py") (Some two_marker_file))).
Proof.
  split; [reflexivity|].
  apply (extracted_comments_are_marker_lines (lit "a.py")
           (open_file (lit "a.py") (Some two_marker_file))
           [lit "### Grading: 1/2"; lit "### Grading: 3/4"] []).
  reflexivity.
Defined.

(** C3 (the code at the failing input).  A file that is not UTF-8, here
    one saved in Latin-1, makes the extractor raise [UnicodeDecodeError]:
    nothing is returned and nothing is printed. *)
Theorem extract_raises_on_undecodable_file :
  extract_grading_comments_from_file (lit "essay.py")
    (open_file (lit "essay.py") (Some latin1_file))
  = (Raise UnicodeDecodeError, []).
Proof. reflexivity. Qed.

(** An [OSError] that interrupts the iteration after some lines leaves
    the comments gathered before it: they are returned, with the
    diagnostic. *)
Example extract_keeps_comments_read_before_an_error :
  extract_grading_comments_from_file (lit "a.py")
    {| lines := [lit "### Grading: 1/1" ++ [10]];
       failure := Some (OSError (lit "[Errno 5] Input/output error")) |}
  = (Return [lit "### Grading: 1/1"],
     [lit "An I/O error occurred while reading 'a.py': [Errno 5] Input/output error"]).
Proof. reflexivity. Qed.

(** ** The claims on the totals *)

(** Counterexample to C2.  With the limit CPython installs (Python 3.11
    and later), an occurrence whose obtained score has 4301 digits is
    not summed: [int] raises [ValueError], the pair is skipped, and the
    call returns (0, 0), not the value of the pair. *)
Lemma long_score_is_not_summed :
  compute_score_totals cpython [long_score]
  ≠ sum_of_all_pairs cpython [long_score].
Proof.
  assert (compute_score_totals cpython [long_score] = (0, 0)%Z) as ->
    by (vm_compute; reflexivity).
  assert ((sum_of_all_pairs cpython [long_score]).2 = 1%Z) as H
    by (vm_compute; reflexivity).
  intros E. rewrite <- E in H. discriminate H.
Qed.

(** ** Paths *)

Section Paths.

Implicit Types (a top p name f : str) (n : node) (es : list (str * node)).

Lemma node_ind_entries (P : node → Prop) :
  (∀ r c, P (File r c)) →
  (∀ l es, Forall (λ e, P e.2) es → P (Dir l es)) →
  ∀ n, P n.
Proof.
  intros HF HD. fix IH 1. intros [r c|l es]; [apply HF|]. apply HD.
  induction es as [|[name n] es IHes]; constructor; [apply IH|apply IHes].
Qed.

Lemma well_formed_dir l es :
  well_formed (Dir l es) ↔
  NoDup es.*1 ∧ Forall valid_name es.*1 ∧ Forall (λ e, well_formed e.2) es.
Proof.
  cbn [well_formed].
  enough ((fix all (es : list (str * node)) : Prop :=
             match es with
             | [] => True
             | (_, n') :: es' => well_formed n' ∧ all es'
             end) es ↔ Forall (λ e, well_formed e.2) es) as -> by done.
  induction es as [|[name n] es IH]; [by split; [constructor|]|].
  rewrite Forall_cons, IH. done.
Qed.

Lemma os_walk_dir top es :
  os_walk top (Dir true es) =
  (top, (List.filter is_dir es).*1, List.filter is_file es) ::
  (es ≫= λ e, os_walk (join top e.1) e.2).
Proof.
  cbn [os_walk]. f_equal.
  induction es as [|[name n] es IH]; [done|]. by rewrite bind_cons, IH.
Qed.

Lemma valid_name_head f : valid_name f → startswith [sep] f = false.
Proof.
  intros [Hne Hsep]. destruct f as [|c f]; [done|]. cbn [startswith].
  destruct (N.eqb_spec sep c) as [<-|]; [|done].
  exfalso. apply Hsep. left.
Qed.

Lemma join_valid a f : valid_name f → join a f = join a [] ++ f.
Proof.
  intros H. unfold join. rewrite (valid_name_head f H).
  destruct a as [|c a]; [done|]. cbn [startswith].
  destruct (endswith [sep] (c :: a)); by rewrite ?app_nil_r, <- ?app_assoc.
Qed.

Lemma endswith_sep_snoc a c : endswith [sep] (a ++ [c]) = (sep =? c).
Proof.
  unfold endswith. rewrite rev_app_distr. cbn. by rewrite andb_true_r.
Qed.

Lemma valid_name_last f :
  valid_name f → ∃ g c, f = g ++ [c] ∧ c ≠ sep.
Proof.
  intros [Hne Hsep]. destruct (rev f) as [|c g] eqn:E.
  { apply (f_equal (@rev N)) in E. rewrite rev_involutive in E. done. }
  exists (rev g), c. apply (f_equal (@rev N)) in E.
  rewrite rev_involutive in E. cbn in E. split; [done|].
  intros ->. apply Hsep. rewrite E. apply elem_of_app. right. left.
Qed.

(** The path of an entry is not empty and ends in no separator, so a
    path below it continues after one separator. *)
Lemma join_join a f : valid_name f → join (join a f) [] = join a [] ++ f ++ [sep].
Proof.
  intros H. rewrite (join_valid a f H).
  destruct (valid_name_last f H) as (g & c & -> & Hc).
  unfold join at 1. cbn [startswith].
  destruct (join a [] ++ g ++ [c]) as [|x t] eqn:E.
  { by destruct (join a []), g. }
  rewrite <- E. rewrite (app_assoc (join a []) g [c]), endswith_sep_snoc.
  destruct (N.eqb_spec sep c); [congruence|]. by rewrite <- !app_assoc.
Qed.

Lemma inside_entry top name : valid_name name → inside top name (join top name).
Proof.
  intros H. exists []. rewrite app_nil_r. split; [by apply join_valid|by left].
Qed.

Lemma inside_deeper top name x p :
  valid_name name → inside (join top name) x p → inside top name p.
Proof.
  intros H (rest & -> & _). rewrite (join_join top name H).
  exists (sep :: x ++ rest). rewrite <- !app_assoc. split; [done|]. right. eauto.
Qed.

Lemma inside_name_unique top name1 name2 p :
  valid_name name1 → valid_name name2 →
  inside top name1 p → inside top name2 p → name1 = name2.
Proof.
  intros [_ H1] [_ H2] (r1 & -> & Hr1) (r2 & E & Hr2).
  apply app_inv_head in E. clear top.
  revert name2 H2 E. induction name1 as [|c n1 IH]; intros [|c' n2] H2 E.
  - done.
  - exfalso. cbn in E. destruct Hr1 as [->|[r ->]]; [done|].
    injection E as <- _. apply H2. left.
  - exfalso. cbn in E. destruct Hr2 as [->|[r ->]]; [done|].
    injection E as -> _. apply H1. left.
  - cbn in E. injection E as -> E. f_equal. apply IH; [| |done].
    + intros ?. apply H1. by right.
    + intros ?. apply H2. by right.
Qed.

Lemma from_sep_app f s : sep ∉ f → from_sep (f ++ sep :: s) = sep :: s.
Proof.
  induction f as [|c f IH]; intros H; [done|]. cbn [app from_sep].
  destruct (N.eqb_spec c sep) as [->|]; [exfalso; apply H; left|].
  apply IH. intros ?. apply H. by right.
Qed.

(** The directory of an entry is the directory it was listed in, when
    that is written without a separator at its end. *)
Lemma join_nil_plain a :
  a ≠ [] → endswith [sep] a = false → join a [] = a ++ [sep].
Proof. intros Ha He. unfold join. destruct a; [done|]. by rewrite He. Qed.

Lemma dirname_join a f :
  valid_name f → a ≠ [] → endswith [sep] a = false → dirname (join a f) = a.
Proof.
  intros Hf Ha He. rewrite (join_valid a f Hf), (join_nil_plain a Ha He).
  assert (∃ g c, a = rev g ++ [c]) as (g & c & ->).
  { destruct (rev a) as [|c g] eqn:E; apply (f_equal (@rev N)) in E;
      rewrite rev_involutive in E; [done|]. by exists g, c. }
  rewrite endswith_sep_snoc in He. apply N.eqb_neq in He.
  unfold dirname.
  replace (rev (((rev g ++ [c]) ++ [sep]) ++ f))
    with (rev f ++ sep :: c :: g).
  2:{ by rewrite !rev_app_distr, rev_involutive. }
  rewrite from_sep_app.
  2:{ intros H. apply Hf. apply list_elem_of_In, in_rev.
      by apply list_elem_of_In. }
  cbn [rev]. rewrite !forallb_app. cbn [forallb].
  destruct (N.eqb_spec sep c) as [|_]; [done|].
  rewrite andb_false_r, andb_false_l.
  rewrite !rev_app_distr, rev_involutive. cbn [rev app lstrip_sep].
  destruct (N.eqb_spec sep sep); [|done]. cbn [lstrip_sep].
  destruct (N.eqb_spec c sep) as [->|]; [done|]. by cbn.
Qed.

End Paths.

(** ** The scan *)

Section Scan.

Variable py : runtime.

Implicit Types (st : scan) (walker : list walk_item) (ps : list (str * node)).

Lemma for_each_app {S A} (body : S → A → outcome S) (l1 l2 : list A) (s : S) :
  for_each body (l1 ++ l2) s =
    match for_each body l1 s with
    | Return s' => for_each body l2 s'
    | Raise e => Raise e
    end.
Proof.
  revert s. induction l1 as [|a l1 IH]; intros s; [done|].
  cbn [app for_each]. by destruct (body s a).
Qed.

Lemma scan_file_record keep root st (f : str * node) :
  scan_file py keep root st f =
    if endswith (lit ".py") f.1
    then record_file py keep st (join root f.1, f.2)
    else Return st.
Proof.
  unfold scan_file, record_file. destruct (endswith _ _); [|done]. cbn [fst snd].
  destruct (extract_grading_comments_from_file _ _) as [[c|e] out] eqn:E;
    [done|].
  by rewrite (extract_raises _ _ _ _ E).
Qed.

Lemma scan_directory_record keep st (item : walk_item) :
  scan_directory py keep st item =
    for_each (record_file py keep) (processed [item]) st.
Proof.
  unfold scan_directory, processed. rewrite bind_singleton.
  destruct item as [[root dirs] files]. cbn [fst snd]. revert st.
  induction files as [|f files IH]; intros st; [done|].
  cbn [for_each List.filter]. rewrite scan_file_record.
  destruct (endswith (lit ".py") f.1).
  - cbn [fmap list_fmap for_each].
    destruct (record_file py keep st (join root f.1, f.2)); [apply IH|done].
  - apply IH.
Qed.

Lemma processed_cons (item : walk_item) walker :
  processed (item :: walker) = processed [item] ++ processed walker.
Proof. unfold processed. by rewrite bind_cons, bind_singleton. Qed.

Lemma processed_app walker1 walker2 :
  processed (walker1 ++ walker2) = processed walker1 ++ processed walker2.
Proof. unfold processed. apply bind_app. Qed.

Lemma for_each_scan_directory keep walker st :
  for_each (scan_directory py keep) walker st =
    for_each (record_file py keep) (processed walker) st.
Proof.
  revert st. induction walker as [|item walker IH]; intros st; [done|].
  rewrite processed_cons, for_each_app. cbn [for_each].
  rewrite scan_directory_record.
  destruct (for_each (record_file py keep) (processed [item]) st); [apply IH|done].
Qed.

Lemma pair_add_comm a b : pair_add a b = pair_add b a.
Proof. unfold pair_add. f_equal; lia. Qed.

Lemma pair_sum_permutation (l1 l2 : list (Z * Z)) :
  l1 ≡ₚ l2 → pair_sum l1 = pair_sum l2.
Proof.
  unfold pair_sum. induction 1 as [|x l1 l2 _ IH|x y l|l1 l2 l3 _ IH1 _ IH2].
  - done.
  - cbn [foldr]. by rewrite IH.
  - cbn [foldr]. rewrite <- !pair_add_assoc. by rewrite (pair_add_comm y x).
  - by rewrite IH1.
Qed.

Lemma table_sum_insert (results : table) path entry :
  results !! path = None →
  table_sum (<[path := entry]> results) = pair_add entry.2 (table_sum results).
Proof.
  intros H. unfold table_sum.
  rewrite (pair_sum_permutation _ _
             (fmap_Permutation _ _ _ (map_to_list_insert _ _ _ H))).
  done.
Qed.

(** While the paths are new to the table, the running totals are the
    sum of the table. *)
Lemma record_files_table_sum ps st st' :
  for_each (record_file py true) ps st = Return st' →
  NoDup ps.*1 →
  (∀ path, path ∈ ps.*1 → per_file_results st !! path = None) →
  totals st = table_sum (per_file_results st) →
  totals st' = table_sum (per_file_results st').
Proof.
  revert st. induction ps as [|pf ps IH]; intros st Hrun Hnd Hnew Hsum.
  - by injection Hrun as <-.
  - cbn [for_each] in Hrun. rewrite fmap_cons in Hnd, Hnew.
    apply NoDup_cons in Hnd as [Hpf Hnd].
    destruct (record_file py true st pf) as [st1|e] eqn:E; [|done].
    apply (IH st1 Hrun Hnd).
    + intros path Hp. unfold record_file in E.
      destruct (extract_grading_comments_from_file _ _) as [[c|?] out];
        [|done].
      injection E as <-. cbn [per_file_results].
      rewrite lookup_insert_ne; [apply Hnew; by right|].
      intros Heq. apply Hpf. by rewrite Heq.
    + unfold record_file in E.
      destruct (extract_grading_comments_from_file _ _) as [[c|?] out];
        [|done].
      injection E as <-. cbn [per_file_results totals].
      rewrite table_sum_insert by (apply Hnew; left).
      cbn [snd]. by rewrite Hsum, pair_add_comm.
Qed.

Lemma record_files_nonnegative keep ps st st' :
  for_each (record_file py keep) ps st = Return st' →
  nonnegative (totals st) → nonnegative (totals st').
Proof.
  revert st. induction ps as [|pf ps IH]; intros st Hrun Hst.
  - by injection Hrun as <-.
  - cbn [for_each] in Hrun.
    destruct (record_file py keep st pf) as [st1|e] eqn:E; [|done].
    apply (IH st1 Hrun). unfold record_file in E.
    destruct (extract_grading_comments_from_file _ _) as [[c|?] out]; [|done].
    injection E as <-. cbn [totals].
    destruct Hst, (compute_score_totals_nonnegative py c).
    split; simpl; lia.
Qed.

Lemma scan_walk_nonnegative keep walker st :
  scan_walk py keep walker = Return st → nonnegative (totals st).
Proof.
  unfold scan_walk. rewrite for_each_scan_directory. intros Hrun.
  by apply (record_files_nonnegative _ _ _ _ Hrun).
Qed.

End Scan.

(** ** The paths of a walk *)

Section WalkPaths.

Implicit Types (top p name : str) (n : node) (e : str * node)
  (es : list (str * node)) (walker : list walk_item).

Lemma elem_of_List_filter {A} (f : A → bool) (l : list A) x :
  x ∈ List.filter f l ↔ x ∈ l ∧ f x = true.
Proof. rewrite !list_elem_of_In. apply filter_In. Qed.

Lemma bind_os_walk_dir {X} (h : walk_item → list X) top es :
  os_walk top (Dir true es) ≫= h =
  h (top, (List.filter is_dir es).*1, List.filter is_file es) ++
  (es ≫= λ e, os_walk (join top e.1) e.2 ≫= h).
Proof.
  rewrite os_walk_dir, bind_cons. f_equal.
  induction es as [|e es IH]; [done|]. by rewrite !bind_cons, bind_app, IH.
Qed.

Lemma processed_paths walker : (processed walker).*1 = walker ≫= item_paths.
Proof.
  induction walker as [|item walker IH]; [done|].
  rewrite processed_cons, fmap_app, IH, bind_cons. f_equal.
  unfold processed, item_paths. rewrite bind_singleton, <- list_fmap_compose.
  done.
Qed.

Lemma regroup {X E} (own sub : E → list X) (l : list E) :
  (l ≫= own) ++ (l ≫= sub) ≡ₚ l ≫= (λ x, own x ++ sub x).
Proof.
  induction l as [|x l IH]; [done|]. rewrite !bind_cons, <- IH.
  rewrite <- !app_assoc. f_equiv. rewrite !app_assoc. f_equiv.
  apply Permutation_app_comm.
Qed.

Lemma item_paths_own top dirs es :
  item_paths (top, dirs, List.filter is_file es) = es ≫= own_path top.
Proof.
  unfold item_paths. cbn [fst snd].
  induction es as [|e es IH]; [done|]. rewrite bind_cons, <- IH.
  unfold own_path. cbn [List.filter]. destruct (is_file e); [|done].
  cbn [List.filter andb]. by destruct (endswith _ _).
Qed.

Lemma walk_paths_entries top es :
  os_walk top (Dir true es) ≫= item_paths ≡ₚ es ≫= entry_paths top.
Proof. rewrite bind_os_walk_dir, item_paths_own. apply regroup. Qed.

Lemma same_name_same_entry es e1 e2 :
  NoDup es.*1 → e1 ∈ es → e2 ∈ es → e1.1 = e2.1 → e1 = e2.
Proof.
  induction es as [|e es IH]; intros Hnd H1 H2 E; [by inv H1|].
  rewrite fmap_cons in Hnd. apply NoDup_cons in Hnd as [Hn Hnd].
  apply elem_of_cons in H1 as [->|H1], H2 as [->|H2]; [done| | |by apply IH].
  - exfalso. apply Hn. rewrite E. by apply list_elem_of_fmap_2.
  - exfalso. apply Hn. rewrite <- E. by apply list_elem_of_fmap_2.
Qed.

(** Every processed path lies in an entry of the directory walked. *)
Lemma walk_paths_inside n :
  well_formed n → ∀ top p,
  p ∈ os_walk top n ≫= item_paths → ∃ name, valid_name name ∧ inside top name p.
Proof.
  induction n as [r c|l es IH] using node_ind_entries; intros Hwf top p Hp.
  { by inv Hp. }
  destruct l; [|by inv Hp].
  apply well_formed_dir in Hwf as (Hnd & Hvalid & Hsub).
  rewrite bind_os_walk_dir in Hp. apply elem_of_app in Hp as [Hp|Hp].
  - apply list_elem_of_fmap in Hp as (f & -> & Hf).
    apply elem_of_List_filter in Hf as [Hf _].
    apply elem_of_List_filter in Hf as [Hf _]. cbn [fst].
    assert (valid_name f.1) as Hv.
    { apply (proj1 (Forall_forall _ _) Hvalid). by apply list_elem_of_fmap_2. }
    exists f.1. split; [done|by apply inside_entry].
  - apply list_elem_of_bind in Hp as (e & Hp & He).
    assert (valid_name e.1) as Hv.
    { apply (proj1 (Forall_forall _ _) Hvalid). by apply list_elem_of_fmap_2. }
    destruct (proj1 (Forall_forall _ _) IH e He
                (proj1 (Forall_forall _ _) Hsub e He) _ _ Hp)
      as (x & Hx & Hin).
    exists e.1. split; [done|]. by apply (inside_deeper top e.1 x).
Qed.

Lemma entry_paths_inside top e p :
  valid_name e.1 → well_formed e.2 → p ∈ entry_paths top e → inside top e.1 p.
Proof.
  intros Hv Hwf [Hp|Hp]%elem_of_app.
  - unfold own_path in Hp. destruct (_ && _); [|by inv Hp].
    apply list_elem_of_singleton in Hp as ->. by apply inside_entry.
  - destruct (walk_paths_inside _ Hwf _ _ Hp) as (x & Hx & Hin).
    by apply (inside_deeper top e.1 x).
Qed.

(** No file is processed twice: the paths of a walk are pairwise
    different. *)
Lemma walk_paths_NoDup n :
  well_formed n → ∀ top, NoDup (os_walk top n ≫= item_paths).
Proof.
  induction n as [r c|l es IH] using node_ind_entries; intros Hwf top.
  { constructor. }
  destruct l; [|constructor].
  rewrite walk_paths_entries.
  apply well_formed_dir in Hwf as (Hnd & Hvalid & Hsub).
  assert (∀ e, e ∈ es → valid_name e.1) as Hv.
  { intros e He. apply (proj1 (Forall_forall _ _) Hvalid).
    by apply list_elem_of_fmap_2. }
  apply NoDup_bind.
  - intros e1 e2 p H1 H2 Hp1 Hp2.
    apply (same_name_same_entry es); [done..|].
    apply (inside_name_unique top _ _ p); auto;
      apply entry_paths_inside; auto;
      by apply (proj1 (Forall_forall _ _) Hsub).
  - intros e He. unfold entry_paths, own_path.
    destruct e as [name [r c|l es']]; cbn [is_file fst snd andb].
    + cbn [os_walk]. rewrite app_nil_r.
      destruct (endswith _ _); [apply NoDup_singleton|constructor].
    + apply (proj1 (Forall_forall _ _) IH _ He).
      apply (proj1 (Forall_forall _ _) Hsub _ He).
  - by apply NoDup_fmap_1 in Hnd.
Qed.

End WalkPaths.

(** ** The claims on [compute_totals_in_directory] *)

Section Directory.

Variable py : runtime.
Variable write_error : str → option str.

Implicit Types (st : scan) (walker : list walk_item) (target : option node).

Lemma scan_walk_table_sum walker st :
  NoDup (walker ≫= item_paths) →
  scan_walk py true walker = Return st →
  totals st = table_sum (per_file_results st).
Proof.
  intros Hnd Hrun. unfold scan_walk in Hrun.
  rewrite for_each_scan_directory in Hrun.
  apply (record_files_table_sum py _ _ _ Hrun).
  - by rewrite processed_paths.
  - intros path _. apply lookup_empty.
  - cbn [per_file_results totals]. unfold table_sum.
    by rewrite map_to_list_empty.
Qed.

Lemma list_files_raises directory_path target e :
  list_files directory_path target = Raise e → is_OSError e = true.
Proof.
  destruct target as [[r c|[] es]|]; cbn [list_files]; try done;
    by intros [= <-].
Qed.

Lemma list_files_returns directory_path target files :
  list_files directory_path target = Return files →
  ∃ es, target = Some (Dir true es) ∧ files = List.filter is_file es.
Proof.
  destruct target as [[r c|[] es]|]; cbn [list_files]; try done.
  intros [= <-]. by exists es.
Qed.

(** The paths the call processes. *)
Lemma walker_paths_NoDup directory_path target :
  well_formed_target target →
  NoDup (match target with
         | Some n => os_walk directory_path n
         | None => []
         end ≫= item_paths).
Proof.
  destruct target as [n|]; [|constructor].
  intros Hwf. by apply walk_paths_NoDup.
Qed.

Lemma listed_paths_NoDup directory_path es :
  well_formed (Dir true es) →
  NoDup ([(directory_path, [], List.filter is_file es)] ≫= item_paths).
Proof.
  intros Hwf. rewrite bind_singleton.
  pose proof (walk_paths_NoDup _ Hwf directory_path) as H.
  rewrite bind_os_walk_dir in H. by apply NoDup_app in H as [H _].
Qed.

(** C7.  With [report_per_file=True] the totals returned are the
    componentwise sum of the per-file totals of the table returned. *)
Theorem returned_totals_sum_the_table directory_path target recursive
    write_report r obt pos results :
  well_formed_target target →
  compute_totals_in_directory py write_error directory_path target
    recursive true write_report = Return r →
  returned r = TotalsAndTable obt pos results →
  (obt, pos) = table_sum results.
Proof.
  intros Hwf Hrun Hret. unfold compute_totals_in_directory in Hrun.
  cbn [orb] in Hrun. destruct recursive.
  - destruct (scan_walk py true _) as [st|e] eqn:E; [|done].
    injection Hrun as <-. cbn [returned] in Hret. injection Hret as <- <- <-.
    rewrite <- (scan_walk_table_sum _ _ (walker_paths_NoDup _ _ Hwf) E).
    by destruct (totals st).
  - destruct (list_files directory_path target) as [files|e] eqn:L.
    + destruct (list_files_returns _ _ _ L) as (es & -> & ->).
      destruct (scan_walk py true _) as [st|e] eqn:E; [|done].
      injection Hrun as <-. cbn [returned] in Hret. injection Hret as <- <- <-.
      rewrite <- (scan_walk_table_sum _ _ (listed_paths_NoDup _ _ Hwf) E).
      by destruct (totals st).
    + rewrite (list_files_raises _ _ _ L) in Hrun. injection Hrun as <-.
      done.
Qed.


(** A root that cannot be enumerated gives totals of zero, in either
    mode, and nothing is raised. *)
Lemma unlistable_root_gives_zero directory_path target recursive
    report_per_file write_report :
  (∀ es, target ≠ Some (Dir true es)) →
  totals_of (compute_totals_in_directory py write_error directory_path target
               recursive report_per_file write_report) = Some (0, 0)%Z.
Proof.
  intros H. unfold compute_totals_in_directory.
  destruct target as [[r c|[] es]|]; try (by destruct (H es));
    destruct recursive, report_per_file, write_report; reflexivity.
Qed.

(** The totals a call returns are not negative. *)
Lemma returned_totals_nonnegative directory_path target recursive
    report_per_file write_report r :
  compute_totals_in_directory py write_error directory_path target
    recursive report_per_file write_report = Return r →
  ∃ t, totals_of (Return r) = Some t ∧ nonnegative t.
Proof.
  unfold compute_totals_in_directory. intros Hrun.
  destruct recursive;
    [|destruct (list_files directory_path target) as [files|e] eqn:L].
  3:{ rewrite (list_files_raises _ _ _ L) in Hrun. injection Hrun as <-.
      by exists (0, 0)%Z. }
  all: destruct (scan_walk py _ _) as [st|e] eqn:E; [|done];
    apply scan_walk_nonnegative in E; injection Hrun as <-;
    exists (totals st); (split; [|done]); cbn [totals_of];
    by destruct report_per_file, (totals st).
Qed.

Lemma written_paths results ds acc :
  (fold_left (write_one_report write_error results) ds acc).1.*1 =
  acc.1.*1 ++
  List.filter (λ q, bool_decide (write_error q = None))
    ((λ d, join d REPORT_FILE_NAME) <$> ds).
Proof.
  revert acc. induction ds as [|d ds IH]; intros acc.
  - cbn [fold_left fmap list_fmap List.filter]. by rewrite app_nil_r.
  - cbn [fold_left fmap list_fmap List.filter]. rewrite IH.
    unfold write_one_report. cbn zeta.
    destruct (write_error (join d REPORT_FILE_NAME)) eqn:E.
    + by rewrite bool_decide_false by congruence.
    + rewrite bool_decide_true by done. cbn [fst]. rewrite fmap_app.
      by rewrite <- app_assoc.
Qed.

Lemma write_reports_paths results directory_path recursive report_path :
  report_path ∈ (write_reports write_error results directory_path recursive).1.*1
  ↔ write_error report_path = None
    ∧ ∃ d, d ∈ dirs_to_report results directory_path recursive
           ∧ report_path = join d REPORT_FILE_NAME.
Proof.
  unfold write_reports. rewrite written_paths. cbn [fst fmap list_fmap app].
  rewrite elem_of_List_filter, list_elem_of_fmap, bool_decide_eq_true.
  unfold sorted. setoid_rewrite merge_sort_Permutation.
  setoid_rewrite elem_of_elements. naive_solver.
Qed.

Lemma record_files_dom ps st st' :
  for_each (record_file py true) ps st = Return st' →
  dom (per_file_results st') = dom (per_file_results st) ∪ list_to_set ps.*1.
Proof.
  revert st. induction ps as [|pf ps IH]; intros st Hrun.
  - injection Hrun as <-. set_solver.
  - cbn [for_each] in Hrun.
    destruct (record_file py true st pf) as [st1|e] eqn:E; [|done].
    rewrite (IH _ Hrun). unfold record_file in E.
    destruct (extract_grading_comments_from_file _ _) as [[c|?] out]; [|done].
    injection E as <-. cbn [per_file_results]. rewrite dom_insert_L.
    set_solver.
Qed.

Lemma scan_walk_dom walker st :
  scan_walk py true walker = Return st →
  dom (per_file_results st) = list_to_set (walker ≫= item_paths).
Proof.
  intros Hrun. unfold scan_walk in Hrun.
  rewrite for_each_scan_directory in Hrun.
  rewrite (record_files_dom _ _ _ Hrun), processed_paths.
  cbn [per_file_results]. set_solver.
Qed.

Lemma fold_report_file results l acc :
  (fold_left (report_file results) l acc).2 =
  pair_add acc.2 (pair_sum (file_totals results <$> l)).
Proof.
  revert acc. induction l as [|p l IH]; intros acc.
  - by rewrite pair_add_zero_r.
  - cbn [fold_left fmap list_fmap]. rewrite IH.
    change (pair_sum (?x :: ?l)) with (pair_add x (pair_sum l)).
    rewrite <- pair_add_assoc. f_equal. unfold report_file, file_totals.
    destruct (results !! p) as [[c [o q]]|]; [done|].
    by rewrite pair_add_zero_r.
Qed.

(** The grand total of the report of [d] sums the files whose
    [dirname] is [d], and no other: there is no roll-up. *)
Lemma grand_total_sums_files_in_dir results d :
  grand_total results d =
  pair_sum (file_totals results <$>
            List.filter (λ p, bool_decide (dirname p = d))
              (sorted (elements (dom results)))).
Proof.
  unfold grand_total. rewrite fold_report_file. apply pair_add_zero_l.
Qed.

(** C4 (as amended).  With report writing on, a call that returns has
    written these reports and no other.  Non-recursive: the report of the
    root, provided the root could be listed, whether or not a file of the
    root was processed.  Recursive: for every directory, the report of the
    directory if and only if one of the files processed is a file of that
    directory.  A report that cannot be opened for writing is left out. *)
Theorem reports_written directory_path target recursive report_per_file r :
  compute_totals_in_directory py write_error directory_path target
    recursive report_per_file true = Return r →
  ∀ report_path,
    report_path ∈ (written r).*1 ↔
    write_error report_path = None ∧
    if recursive
    then ∃ p, p ∈ (match target with
                   | Some n => os_walk directory_path n
                   | None => []
                   end ≫= item_paths)
              ∧ report_path = join (dirname p) REPORT_FILE_NAME
    else (∃ files, list_files directory_path target = Return files)
         ∧ report_path = join directory_path REPORT_FILE_NAME.
Proof.
  intros Hrun q. unfold compute_totals_in_directory in Hrun.
  rewrite orb_true_r in Hrun. destruct recursive.
  - destruct (scan_walk py true _) as [st|e] eqn:E; [|done].
    injection Hrun as <-. cbn [written]. rewrite write_reports_paths.
    unfold dirs_to_report. setoid_rewrite elem_of_list_to_set.
    setoid_rewrite list_elem_of_fmap. setoid_rewrite elem_of_elements.
    rewrite (scan_walk_dom _ _ E). setoid_rewrite elem_of_list_to_set.
    naive_solver.
  - destruct (list_files directory_path target) as [files|e] eqn:L.
    + destruct (scan_walk py true _) as [st|e] eqn:E; [|done].
      injection Hrun as <-. cbn [written]. rewrite write_reports_paths.
      unfold dirs_to_report. setoid_rewrite elem_of_singleton.
      naive_solver.
    + rewrite (list_files_raises _ _ _ L) in Hrun. injection Hrun as <-.
      cbn [written fmap list_fmap]. split; [by inversion 1|].
      by intros (_ & [files' ?] & _).
Qed.

End Directory.

Lemma no_marker_no_comment file_lines :
  Forall (λ line, find GRADING_MARKER (strip line) = None) file_lines →
  omap marker_text file_lines = [].
Proof.
  induction 1 as [|l ls Hl _ IH]; [done|].
  cbn [omap list_omap]. unfold marker_text at 1. by rewrite Hl.
Qed.

(** C8.  The totals, of a sequence of comments and of a directory, are
    never negative; a file without a marker line contributes (0, 0); and a
    pair with a group that [int] refuses is passed over, the pairs before
    and after it counting as they do without it. *)
Theorem score_totals_invariants (py : runtime) :
  (∀ comments, nonnegative (compute_score_totals py comments))
  ∧ (∀ write_error directory_path target recursive report_per_file
       write_report r,
       compute_totals_in_directory py write_error directory_path target
         recursive report_per_file write_report = Return r →
       ∃ t, totals_of (Return r) = Some t ∧ nonnegative t)
  ∧ (∀ file_name r comments out,
       Forall (λ line, find GRADING_MARKER (strip line) = None) (lines r) →
       extract_grading_comments_from_file file_name r = (Return comments, out) →
       compute_score_totals py comments = (0, 0)%Z)
  ∧ (∀ totals before obtained_str possible_str after,
       py_int py obtained_str = None ∨ py_int py possible_str = None →
       fold_left (add_match py)
         (before ++ [obtained_str; possible_str] :: after) totals
       = fold_left (add_match py) (before ++ after) totals).
Proof.
  split; [apply compute_score_totals_nonnegative|].
  split; [intros *; apply returned_totals_nonnegative|]. split.
  - intros file_name r comments out Hno ->%extract_returns.
    by rewrite (no_marker_no_comment _ Hno).
  - intros totals before o p after H. rewrite !fold_left_app.
    cbn [fold_left]. by rewrite (add_match_unparsable py _ o p H).
Qed.

(** ** The claims at concrete inputs *)

Ltac by_computation := apply (bool_decide_unpack _); vm_compute; exact I.

Lemma homework_well_formed : well_formed homework.
Proof. repeat split; by_computation. Qed.

(** Witness of C7: the directory of the repository's test. *)
Lemma returned_totals_sum_the_table_witness :
  well_formed_target (Some homework)
  ∧ ∃ r results,
      compute_totals_in_directory cpython no_write_error (lit "hw")
        (Some homework) false true true = Return r
      ∧ returned r = TotalsAndTable 7 8 results
      ∧ (7, 8)%Z = table_sum results.
Proof.
  split; [exact homework_well_formed|].
  assert (∃ r, compute_totals_in_directory cpython no_write_error (lit "hw")
                 (Some homework) false true true = Return r
               ∧ ∃ results, returned r = TotalsAndTable 7 8 results)
    as (r & E & results & R).
  { eexists. split; [vm_compute; reflexivity|]. eexists. reflexivity. }
  exists r, results. split; [exact E|]. split; [exact R|].
  exact (returned_totals_sum_the_table cpython no_write_error (lit "hw")
           (Some homework) false true r 7 8 results homework_well_formed E R).
Defined.


(** C6 (the code at the failing input).  One file that is not UTF-8
    among the files of the directory, and the whole call raises
    [UnicodeDecodeError], in either mode: no totals, also not those of the
    file read before it, and no report. *)
Theorem undecodable_file_aborts_the_call :
  compute_totals_in_directory cpython no_write_error (lit "hw")
    (Some mixed_homework) false true true = Raise UnicodeDecodeError
  ∧ compute_totals_in_directory cpython no_write_error (lit "hw")
      (Some mixed_homework) true true true = Raise UnicodeDecodeError.
Proof. split; vm_compute; reflexivity. Qed.

(** C5 (the code at the failing input).  The root given with a trailing
    separator, non-recursive: the totals returned are (7, 8), and the
    report of the root lists no file and ends in "Grand total: 0 / 0". *)
Theorem grand_total_of_root_with_trailing_separator :
  totals_of (compute_totals_in_directory cpython no_write_error (lit "hw/")
               (Some homework) false true true) = Some (7, 8)%Z
  ∧ written_by (compute_totals_in_directory cpython no_write_error (lit "hw/")
                  (Some homework) false true true)
    = [(lit "hw/grading_report.txt",
        lit "Grading report for directory: " ++ nl ++ nl
        ++ lit "Grand total: 0 / 0" ++ nl)].
Proof. split; vm_compute; reflexivity. Qed.

(** Counterexample to C4.  Non-recursive, a root without any file named
    [*.py]: no file is processed, and a report is written into the root. *)
Lemma report_written_without_processed_file :
  ¬ ((∃ content,
        (join (lit "hw") REPORT_FILE_NAME, content)
        ∈ written_by (compute_totals_in_directory cpython no_write_error
                        (lit "hw") (Some notes_only) false false true))
     ↔ processed [(lit "hw", [], [(lit "notes.txt",
                                   File true (lit "nothing to grade" ++ nl))])]
       ≠ []).
Proof.
  intros [H _]. apply H; [|reflexivity].
  exists (lit "Grading report for directory: hw" ++ nl ++ nl
          ++ lit "Grand total: 0 / 0" ++ nl).
  by_computation.
Qed.

(** Witness of C4 (as amended): a recursive scan of the directory of
    the repository's test. *)
Lemma reports_written_witness :
  ∃ r, compute_totals_in_directory cpython no_write_error (lit "hw")
         (Some homework) true false true = Return r
       ∧ lit "hw/grading_report.txt" ∈ (written r).*1.
Proof.
  assert (∃ r, compute_totals_in_directory cpython no_write_error (lit "hw")
                 (Some homework) true false true = Return r) as [r E].
  { eexists. vm_compute. reflexivity. }
  exists r. split; [exact E|].
  apply (proj2 (reports_written cpython no_write_error (lit "hw")
                  (Some homework) true false r E (lit "hw/grading_report.txt"))).
  split; [reflexivity|]. exists (lit "hw/a.py"). split; [by_computation|].
  vm_compute. reflexivity.
Defined.

(** Witness of C8: a score, a scan, a file without marker and a pair
    whose obtained score has 4301 digits. *)
Lemma score_totals_invariants_witness :
  nonnegative (compute_score_totals cpython [lit "### Grading: 3/5"])
  ∧ (∃ t, totals_of (compute_totals_in_directory cpython no_write_error
                       (lit "hw") (Some homework) true false false) = Some t
          ∧ nonnegative t)
  ∧ compute_score_totals cpython [] = (0, 0)%Z
  ∧ fold_left (add_match cpython)
      ([[lit "1"; lit "2"]] ++ [repeat 49 4301; lit "1"] :: [[lit "3"; lit "4"]])
      (0, 0)%Z
    = (4, 6)%Z.
Proof.
  destruct (score_totals_invariants cpython) as (H1 & H2 & H3 & H4).
  split; [apply H1|]. split; [|split].
  - assert (∃ r, compute_totals_in_directory cpython no_write_error (lit "hw")
                   (Some homework) true false false = Return r) as [r E].
    { eexists. vm_compute. reflexivity. }
    rewrite E. exact (H2 _ _ _ _ _ _ r E).
  - apply (H3 (lit "plain.py")
             (open_file (lit "plain.py") (Some (File true (lit "x = 1" ++ [10]))))
             [] []); [by repeat constructor|reflexivity].
  - rewrite (H4 (0, 0)%Z [[lit "1"; lit "2"]] (repeat 49 4301) (lit "1")
               [[lit "3"; lit "4"]]); [reflexivity|].
    left. vm_compute. reflexivity.
Defined.

(** ** The summary *)

Section Summary.

Variable results : table.

Implicit Types (top p name : str) (n : node) (e : str * node)
  (es : list (str * node)) (relative : option str).











End Summary.


Section SummaryOfRun.

Variable py : runtime.
Variable write_error : str → option str.

Implicit Types (st : scan) (ps : list (str * node)).

Lemma record_file_returns st st' pf :
  record_file py true st pf = Return st' →
  totals st' = pair_add (totals st) (file_score py pf)
  ∧ per_file_results st'
    = <[pf.1 := ((per_file_results st' !!! pf.1).1, file_score py pf)]>
        (per_file_results st).
Proof.
  unfold record_file, file_score.
  destruct (extract_grading_comments_from_file _ _) as [[c|?] out]; [|done].
  intros [= <-]. cbn [totals per_file_results fst].
  by rewrite lookup_total_insert_eq.
Qed.

Lemma record_files_totals ps st st' :
  for_each (record_file py true) ps st = Return st' →
  totals st' = pair_add (totals st) (pair_sum (file_score py <$> ps)).
Proof.
  revert st. induction ps as [|pf ps IH]; intros st Hrun.
  - injection Hrun as <-. by rewrite pair_add_zero_r.
  - cbn [for_each] in Hrun.
    destruct (record_file py true st pf) as [st1|e] eqn:E; [|done].
    rewrite (IH _ Hrun). apply record_file_returns in E as [-> _].
    by rewrite pair_add_assoc.
Qed.







End SummaryOfRun.

Lemma topdir_well_formed : well_formed topdir.
Proof. repeat split; by_computation. Qed.


(** ** The tests of the repository *)

Example test_compute_score_totals_basic :
  compute_score_totals cpython
    [ lit "### Grading: 3/5"; lit "Some note"; lit "### Grading: 2/2";
      lit "### Grading: 1/5 ### Grading: 2/2" ]
  = (8, 14)%Z.
Proof. vm_compute. reflexivity. Qed.

Example test_compute_score_totals_parsing :
  compute_score_totals cpython
    [ lit "### Grading: 6/10"; lit "some text";
      lit "prefix ### Grading: 4/5 extra"; lit "### Grading: 2/2" ]
  = (12, 17)%Z.
Proof. vm_compute. reflexivity. Qed.

Example test_compute_totals_in_directory_non_recursive :
  totals_of (compute_totals_in_directory cpython no_write_error (lit "tmp")
               (Some homework) false true true) = Some (7, 8)%Z
  ∧ size (table_of (compute_totals_in_directory cpython no_write_error
                      (lit "tmp") (Some homework) false true true)) = 2%nat
  ∧ written_by (compute_totals_in_directory cpython no_write_error (lit "tmp")
                  (Some homework) false true true)
    = [(lit "tmp/grading_report.txt",
        lit "Grading report for directory: tmp" ++ nl ++ nl
        ++ lit "File: a.py" ++ nl
        ++ lit "### Grading: 4/5" ++ nl
        ++ lit "### Grading: 1/1" ++ nl
        ++ lit "Total for a.py: 5 / 6" ++ nl ++ nl
        ++ lit "File: b.py" ++ nl
        ++ lit "### Grading: 2/2" ++ nl
        ++ lit "Total for b.py: 2 / 2" ++ nl ++ nl
        ++ lit "Grand total: 7 / 8" ++ nl)].
Proof. repeat split; vm_compute; reflexivity. Qed.

Example test_write_summary_recursive :
  summary_lines
    (table_of (compute_totals_in_directory cpython no_write_error
                 (lit "tmp/top") (Some top_tree) true true false))
    (lit "tmp/top") (Some top_tree)
  = [ SUMMARY_HEADER; lit "top,10,14"; lit "sub1,2,3"; lit "sub2,7,9";
      lit "sub2/subsub,4,5" ].
Proof. vm_compute. reflexivity. Qed.

(** * Further properties of the code *)

(** ** The aggregator *)

Section MoreAggregator.

Variable py : runtime.

Implicit Types (s c d : str) (comments : list str).

Lemma compute_score_totals_cons c comments :
  compute_score_totals py (c :: comments) =
  pair_add (compute_score_totals py [c]) (compute_score_totals py comments).
Proof.
  rewrite !compute_score_totals_sum. unfold sum_of_converted_pairs.
  rewrite bind_cons, List.filter_app, fmap_app, pair_sum_app.
  by rewrite bind_singleton.
Qed.

(** X1.  The totals of two sequences of comments one after the other are
    the sums of their totals. *)
Theorem compute_score_totals_app comments1 comments2 :
  compute_score_totals py (comments1 ++ comments2) =
  pair_add (compute_score_totals py comments1)
           (compute_score_totals py comments2).
Proof.
  induction comments1 as [|c cs IH]; [by rewrite pair_add_zero_l|].
  cbn [app]. rewrite (compute_score_totals_cons c (cs ++ comments2)), IH.
  by rewrite (compute_score_totals_cons c cs), pair_add_assoc.
Qed.

Lemma compute_score_totals_each comments :
  compute_score_totals py comments =
  pair_sum ((λ c, compute_score_totals py [c]) <$> comments).
Proof.
  induction comments as [|c cs IH]; [done|].
  by rewrite compute_score_totals_cons, IH.
Qed.

(** X2.  The order of the comments does not matter to the totals. *)
Theorem compute_score_totals_permutation comments1 comments2 :
  comments1 ≡ₚ comments2 →
  compute_score_totals py comments1 = compute_score_totals py comments2.
Proof.
  intros H. rewrite !compute_score_totals_each.
  apply pair_sum_permutation. by apply fmap_Permutation.
Qed.

Lemma find_None sub s :
  find sub s = None → ∀ i, startswith sub (drop i s) = false.
Proof.
  induction s as [|x s IH]; cbn [find].
  - destruct (startswith sub []) eqn:E; [done|]. by intros _ [|i].
  - destruct (startswith sub (x :: s)) eqn:E; [done|].
    destruct (find sub s); [done|]. intros _ [|i]; [done|]. by apply IH.
Qed.

Lemma score_pairs_none s :
  (∀ i, score_pair_at py (drop i s) = None) → score_pairs py s = [].
Proof.
  induction s as [|x s IH]; intros H; cbn [score_pairs].
  - pose proof (H 0%nat) as H0. cbn [drop] in H0. by rewrite H0.
  - pose proof (H 0%nat) as H0. cbn [drop] in H0. rewrite H0.
    apply IH. intros i. apply (H (S i)).
Qed.

Lemma no_marker_no_score c :
  has_marker c = false → compute_score_totals py [c] = (0, 0)%Z.
Proof.
  unfold has_marker. destruct (find GRADING_MARKER c) eqn:F; [done|]. intros _.
  rewrite compute_score_totals_sum. unfold sum_of_converted_pairs.
  rewrite bind_singleton, score_pairs_none; [done|].
  intros i. unfold score_pair_at. by rewrite (find_None _ _ F).
Qed.

(** X3.  The strings that do not contain the marker add nothing: the
    totals are those of the strings that contain it. *)
Theorem compute_score_totals_marker_only comments :
  compute_score_totals py comments =
  compute_score_totals py (List.filter has_marker comments).
Proof.
  induction comments as [|c cs IH]; [done|]. cbn [List.filter].
  rewrite compute_score_totals_cons, IH.
  destruct (has_marker c) eqn:E.
  - by rewrite <- compute_score_totals_cons.
  - by rewrite (no_marker_no_score c E), pair_add_zero_l.
Qed.

Lemma lstrip_spaces w s :
  Forall (λ x, isspace x = true) w → lstrip (w ++ s) = lstrip s.
Proof. induction 1 as [|x w Hx _ IH]; [done|]. cbn [app lstrip]. by rewrite Hx. Qed.

Lemma lstrip_digit_group d s : digit_group py d → lstrip (d ++ s) = d ++ s.
Proof.
  intros [Hne F]. destruct F as [|x d Hx _]; [done|]. cbn [app lstrip].
  by rewrite (decimal_is_not_space py x Hx).
Qed.

Lemma leading_digits_app d s :
  Forall (λ x, isdecimal py x = true) d → no_digit_ahead py s →
  leading_digits py (d ++ s) = d.
Proof.
  induction 1 as [|x d Hx _ IH]; intros Hs.
  - destruct s as [|x s]; [done|]. cbn in *. by rewrite Hs.
  - cbn [app leading_digits]. by rewrite Hx, IH.
Qed.

Lemma no_digit_ahead_spaces w s :
  Forall (λ x, isspace x = true) w → no_digit_ahead py s → no_digit_ahead py (w ++ s).
Proof.
  intros F Hs. destruct F as [|x w Hx _]; [done|]. cbn.
  by apply space_not_decimal.
Qed.

Lemma startswith_self m s : startswith m (m ++ s) = true.
Proof.
  induction m as [|a m IH]; [done|]. cbn [app startswith].
  by rewrite N.eqb_refl, IH.
Qed.

(** The occurrence at the head of a score written out. *)
Lemma score_pair_at_written w1 d1 w2 w3 d2 rest :
  Forall (λ x, isspace x = true) w1 → Forall (λ x, isspace x = true) w2 →
  Forall (λ x, isspace x = true) w3 →
  digit_group py d1 → digit_group py d2 → no_digit_ahead py rest →
  score_pair_at py
    (GRADING_MARKER ++ w1 ++ d1 ++ w2 ++ [47] ++ w3 ++ d2 ++ rest)
  = Some (d1, d2).
Proof.
  intros F1 F2 F3 G1 G2 Hrest. unfold score_pair_at.
  rewrite startswith_self, drop_app_length. cbn zeta.
  rewrite (lstrip_spaces w1 _ F1), (lstrip_digit_group d1 _ G1).
  assert (no_digit_ahead py (w2 ++ [47] ++ w3 ++ d2 ++ rest)) as H2.
  { apply no_digit_ahead_spaces; [done|]. cbn. by apply ascii_not_decimal. }
  rewrite (leading_digits_app d1 _ (proj2 G1) H2).
  destruct d1 as [|x1 d1]; [by destruct G1|]. rewrite drop_app_length.
  rewrite (lstrip_spaces w2 _ F2). cbn [app lstrip].
  replace (isspace 47) with false by done. rewrite N.eqb_refl.
  rewrite (lstrip_spaces w3 _ F3), (lstrip_digit_group d2 _ G2).
  rewrite (leading_digits_app d2 _ (proj2 G2) Hrest).
  destruct d2 as [|x2 d2]; [by destruct G2|]. done.
Qed.

Lemma score_pairs_first s :
  (∀ j, (0 < j)%nat → score_pair_at py (drop j s) = None) →
  score_pairs py s =
    match score_pair_at py s with Some pr => [pr] | None => [] end.
Proof.
  intros H. destruct s as [|x s]; cbn [score_pairs].
  - by rewrite app_nil_r.
  - rewrite (score_pairs_none s); [by rewrite app_nil_r|].
    intros i. apply (H (S i)). lia.
Qed.

Lemma digit_group_no_hash d : digit_group py d → Forall (λ x, x ≠ 35) d.
Proof.
  intros [_ F]. eapply Forall_impl; [exact F|].
  intros x Hx. by apply (in_category_not_hash py CategoryDigit).
Qed.

Lemma spaces_no_hash w :
  Forall (λ x, isspace x = true) w → Forall (λ x, x ≠ 35) w.
Proof.
  intros F. eapply Forall_impl; [exact F|].
  intros x Hx. by apply (in_category_not_hash py CategorySpace).
Qed.

(** A score written out, and a remark without marker after it: the one
    occurrence of the string. *)
Lemma score_pairs_written w1 d1 w2 w3 d2 rest :
  Forall (λ x, isspace x = true) w1 → Forall (λ x, isspace x = true) w2 →
  Forall (λ x, isspace x = true) w3 →
  digit_group py d1 → digit_group py d2 →
  no_digit_ahead py rest → has_marker rest = false →
  score_pairs py
    (GRADING_MARKER ++ w1 ++ d1 ++ w2 ++ [47] ++ w3 ++ d2 ++ rest)
  = [(d1, d2)].
Proof.
  intros F1 F2 F3 G1 G2 Hrest Hm.
  rewrite score_pairs_first.
  { by rewrite score_pair_at_written. }
  intros j Hj. unfold score_pair_at.
  set (mid := w1 ++ d1 ++ w2 ++ [47] ++ w3 ++ d2).
  replace (GRADING_MARKER ++ w1 ++ d1 ++ w2 ++ [47] ++ w3 ++ d2 ++ rest)
    with (GRADING_MARKER ++ mid ++ rest)
    by (unfold mid; by rewrite <- !app_assoc).
  destruct (decide (j < length GRADING_MARKER + length mid)%nat) as [Hlt|Hge].
  - rewrite no_marker_inside; [done| |lia].
    unfold mid. rewrite !Forall_app.
    repeat split; auto using spaces_no_hash, digit_group_no_hash.
  - rewrite app_assoc, drop_app_ge by (rewrite length_app; lia).
    unfold has_marker in Hm.
    destruct (find GRADING_MARKER rest) eqn:F; [done|].
    by rewrite (find_None _ _ F).
Qed.

(** X4.  A string that is the marker, a score written as digits, a
    slash and digits with any blanks between them, and after it a remark
    without marker, gives the two numbers as its totals, or nothing when
    [int] refuses one of them for its length.  No pair is refused for its
    values: the obtained score may exceed the possible one. *)
Theorem compute_score_totals_written w1 d1 w2 w3 d2 rest :
  Forall (λ x, isspace x = true) w1 → Forall (λ x, isspace x = true) w2 →
  Forall (λ x, isspace x = true) w3 →
  digit_group py d1 → digit_group py d2 →
  no_digit_ahead py rest → has_marker rest = false →
  compute_score_totals py
    [GRADING_MARKER ++ w1 ++ d1 ++ w2 ++ [47] ++ w3 ++ d2 ++ rest]
  = if converts py (d1, d2) then pair_value py (d1, d2) else (0, 0)%Z.
Proof.
  intros F1 F2 F3 G1 G2 Hrest Hm.
  rewrite compute_score_totals_sum. unfold sum_of_converted_pairs.
  rewrite bind_singleton, score_pairs_written by done. cbn [List.filter].
  destruct (converts py (d1, d2)); [|done].
  cbn [fmap list_fmap]. unfold pair_sum. cbn [foldr].
  by rewrite pair_add_zero_r.
Qed.

(** *** [str] and [int] *)

Lemma lit_string_of_uint u :
  lit (NilEmpty.string_of_uint u) = (λ v, 48 + v) <$> uint_digits u.
Proof.
  unfold lit.
  induction u as [|u IH|u IH|u IH|u IH|u IH|u IH|u IH|u IH|u IH|u IH];
    cbn [NilEmpty.string_of_uint list_ascii_of_string map uint_digits
         fmap list_fmap]; [done|..]; by rewrite IH.
Qed.

Lemma uint_digits_below_ten u : Forall (λ v, v < 10) (uint_digits u).
Proof.
  induction u; cbn [uint_digits]; constructor; try done; lia.
Qed.

Lemma decimal_digit (v : N) : v < 10 → decimal py (48 + v) = Some v.
Proof.
  intros H. rewrite decimal_ascii by lia.
  destruct (48 <=? 48 + v) eqn:E1; [|apply N.leb_gt in E1; lia].
  destruct (48 + v <=? 57) eqn:E2; [|apply N.leb_gt in E2; lia].
  cbn [andb]. f_equal. lia.
Qed.

Lemma of_digits_acc u acc :
  fold_left (λ a v, a * 10 + Z.of_N v)%Z (uint_digits u) (Z.pos acc) =
  Z.pos (Pos.of_uint_acc u acc).
Proof.
  revert acc.
  induction u as [|u IH|u IH|u IH|u IH|u IH|u IH|u IH|u IH|u IH|u IH];
    intros acc; cbn [uint_digits fold_left Pos.of_uint_acc]; [done|..];
    rewrite <- IH; f_equal; lia.
Qed.

Lemma of_digits_uint u : of_digits (uint_digits u) = Z.of_N (Pos.of_uint u).
Proof.
  unfold of_digits.
  induction u as [|u IH|u IH|u IH|u IH|u IH|u IH|u IH|u IH|u IH|u IH];
    cbn [uint_digits fold_left Pos.of_uint]; [done|exact IH|..];
    cbn [N.to_nat Z.of_N]; rewrite <- of_digits_acc; f_equal.
Qed.

Lemma digits_value_digits ds :
  Forall (λ v, v < 10) ds →
  digits_value py ((λ v, 48 + v) <$> ds) = of_digits ds.
Proof.
  intros F. unfold digits_value. f_equal.
  induction F as [|v ds Hv _ IH]; [done|].
  cbn [fmap list_fmap map]. rewrite (decimal_digit v Hv). cbn [default].
  f_equal. exact IH.
Qed.

Lemma digit_group_digits ds :
  ds ≠ [] → Forall (λ v, v < 10) ds →
  digit_group py ((λ v, 48 + v) <$> ds).
Proof.
  intros Hne F. split; [by destruct ds|].
  apply Forall_fmap. eapply Forall_impl; [exact F|].
  intros v Hv. unfold isdecimal. cbn. by rewrite (decimal_digit v Hv).
Qed.

(** [str] of a natural number: its digits, first one first. *)
Lemma str_of_Z_digits a :
  (0 ≤ a)%Z →
  ∃ u, uint_digits u ≠ [] ∧
       str_of_Z a = (λ v, 48 + v) <$> uint_digits u ∧
       Z.of_N (Pos.of_uint u) = a.
Proof.
  intros Ha. destruct a as [|p|p]; [| |lia].
  - by exists (Decimal.D0 Decimal.Nil).
  - exists (Pos.to_uint p). unfold str_of_Z.
    cbn [Z.to_int NilZero.string_of_int NilZero.string_of_uint].
    pose proof (DecimalPos.Unsigned.to_uint_nonnil p) as Hnil.
    split; [by destruct (Pos.to_uint p)|]. split.
    + rewrite <- lit_string_of_uint. by destruct (Pos.to_uint p).
    + by rewrite DecimalPos.Unsigned.of_to.
Qed.

Lemma str_of_Z_digit_group a : (0 ≤ a)%Z → digit_group py (str_of_Z a).
Proof.
  intros (u & Hne & -> & _)%str_of_Z_digits.
  apply digit_group_digits; [done|apply uint_digits_below_ten].
Qed.

Lemma digits_value_str_of_Z a : (0 ≤ a)%Z → digits_value py (str_of_Z a) = a.
Proof.
  intros (u & Hne & -> & Hu)%str_of_Z_digits.
  by rewrite digits_value_digits, of_digits_uint
    by apply uint_digits_below_ten.
Qed.

(** X5.  What [str] writes, [int] reads back: the comment that is the
    marker, a blank and two natural numbers around a slash, both printed
    as [str] prints them, gives these two numbers as its totals (or
    nothing, when one of them has more digits than [int] accepts). *)
Theorem compute_score_totals_score_comment a b :
  (0 ≤ a)%Z → (0 ≤ b)%Z →
  compute_score_totals py [score_comment a b] =
  if converts py (str_of_Z a, str_of_Z b) then (a, b) else (0, 0)%Z.
Proof.
  intros Ha Hb. rewrite compute_score_totals_sum.
  unfold sum_of_converted_pairs. rewrite bind_singleton.
  pose proof (score_pairs_written [32] (str_of_Z a) [] [] (str_of_Z b) [])
    as H.
  rewrite !app_nil_r in H. cbn [app] in H. unfold score_comment.
  cbn [app]. rewrite H; try done.
  - cbn [List.filter]. destruct (converts py _); [|done].
    cbn [fmap list_fmap]. unfold pair_sum, pair_value. cbn [foldr fst snd].
    by rewrite pair_add_zero_r, !digits_value_str_of_Z.
  - by repeat constructor.
  - by apply str_of_Z_digit_group.
  - by apply str_of_Z_digit_group.
Qed.

(** *** Short comments *)

Lemma length_leading_digits_le s :
  (length (leading_digits py s) ≤ length s)%nat.
Proof. rewrite length_leading_digits. apply run_length_le. Qed.

Lemma score_pair_at_short s pr :
  score_pair_at py s = Some pr →
  (length pr.1 ≤ length s ∧ length pr.2 ≤ length s)%nat.
Proof.
  unfold score_pair_at. destruct (startswith _ _); [|done]. cbn zeta.
  set (after_marker := lstrip (drop (length GRADING_MARKER) s)).
  assert (length after_marker ≤ length s)%nat as L0.
  { unfold after_marker.
    pose proof (length_lstrip (drop (length GRADING_MARKER) s)) as L.
    rewrite length_drop in L. lia. }
  pose proof (length_leading_digits_le after_marker) as L1.
  destruct (leading_digits py after_marker) as [|x obtained]; [done|].
  pose proof (length_lstrip (drop (length (x :: obtained)) after_marker)) as L2.
  rewrite length_drop in L2.
  destruct (lstrip (drop (length (x :: obtained)) after_marker))
    as [|c after_slash]; [done|].
  destruct (c =? 47); [|done].
  pose proof (length_leading_digits_le (lstrip after_slash)) as L3.
  pose proof (length_lstrip after_slash) as L4.
  destruct (leading_digits py (lstrip after_slash)) as [|y possible]; [done|].
  intros [= <-]. cbn [fst snd length] in *. lia.
Qed.

Lemma score_pairs_short s pr :
  pr ∈ score_pairs py s →
  (length pr.1 ≤ length s ∧ length pr.2 ≤ length s)%nat.
Proof.
  induction s as [|x s IH]; cbn [score_pairs]; rewrite elem_of_app;
    intros [H|H].
  - destruct (score_pair_at py []) eqn:E; [|by apply elem_of_nil in H].
    apply list_elem_of_singleton in H as ->. by apply score_pair_at_short.
  - by apply elem_of_nil in H.
  - destruct (score_pair_at py (x :: s)) eqn:E; [|by apply elem_of_nil in H].
    apply list_elem_of_singleton in H as ->. by apply score_pair_at_short.
  - apply IH in H. cbn [length]. lia.
Qed.

Lemma converts_short pr :
  (length pr.1 ≤ 640)%nat → (length pr.2 ≤ 640)%nat → converts py pr = true.
Proof.
  intros H1 H2. unfold converts, exceeds_limit.
  destruct (640 <? length pr.1)%nat eqn:E1; [apply Nat.ltb_lt in E1; lia|].
  destruct (640 <? length pr.2)%nat eqn:E2; [apply Nat.ltb_lt in E2; lia|].
  done.
Qed.

Lemma filter_all {A} (f : A → bool) l :
  Forall (λ x, f x = true) l → List.filter f l = l.
Proof.
  induction 1 as [|x l Hx _ IH]; [done|]. cbn [List.filter].
  by rewrite Hx, IH.
Qed.

(** X6.  When no comment is longer than 640 characters, every score that
    is written in them counts, whatever limit the interpreter puts on the
    digits of a number: the check of the length is not made on numbers of
    up to 640 digits. *)
Theorem compute_score_totals_short_comments comments :
  Forall (λ c, (length c ≤ 640)%nat) comments →
  compute_score_totals py comments = sum_of_all_pairs py comments.
Proof.
  intros F. rewrite compute_score_totals_sum.
  unfold sum_of_converted_pairs, sum_of_all_pairs.
  rewrite filter_all; [done|].
  apply Forall_forall. intros pr Hpr.
  apply list_elem_of_bind in Hpr as (c & Hpr & Hc).
  apply (proj1 (Forall_forall _ _) F) in Hc.
  apply score_pairs_short in Hpr. apply converts_short; lia.
Qed.

End MoreAggregator.

(** ** More on the extractor *)

Section MoreExtractor.

Implicit Types (s line c : str) (file_lines : list str).

Lemma find_at_head sub s : startswith sub s = true → find sub s = Some 0%nat.
Proof. intros H. destruct s; cbn [find]; by rewrite H. Qed.

Lemma marker_text_marker_text line c :
  marker_text line = Some c → marker_text c = Some c.
Proof.
  unfold marker_text at 1.
  destruct (find GRADING_MARKER (strip line)) as [i|] eqn:F; [|done].
  intros [= <-]. pose proof (strip_from_marker _ _ F) as Hs.
  apply find_Some in F as [Hm _]. unfold marker_text.
  by rewrite Hs, (find_at_head _ _ Hm).
Qed.

Lemma omap_marker_text_again file_lines :
  omap marker_text (omap marker_text file_lines) = omap marker_text file_lines.
Proof.
  induction file_lines as [|l ls IH]; [done|]. cbn [omap list_omap].
  destruct (marker_text l) as [c|] eqn:E; [|done]. cbn [omap list_omap].
  by rewrite (marker_text_marker_text _ _ E), IH.
Qed.

(** X7.  The extractor leaves its own results alone: a file whose lines
    are the comments a call returned gives back these comments, all of
    them, unchanged and in their order. *)
Theorem extract_again file_name r comments out file_name' :
  extract_grading_comments_from_file file_name r = (Return comments, out) →
  extract_grading_comments_from_file file_name'
    {| lines := comments; failure := None |}
  = (Return comments, []).
Proof.
  intros ->%extract_returns. unfold extract_grading_comments_from_file.
  cbn [lines failure]. rewrite fold_keep_comment. cbn [app].
  by rewrite omap_marker_text_again.
Qed.


Lemma utf8_decode_ascii bytes :
  Forall (λ b, b < 128) bytes → utf8_decode bytes = Some bytes.
Proof.
  induction 1 as [|b bytes Hb _ IH]; [done|]. cbn [utf8_decode].
  apply N.ltb_lt in Hb. rewrite Hb, IH. done.
Qed.

(** X9.  A file of ASCII bytes that can be read is never refused: the
    extractor returns the marker lines of its text and prints nothing. *)
Theorem extract_ascii_file path bytes :
  Forall (λ b, b < 128) bytes →
  extract_grading_comments_from_file path
    (open_file path (Some (File true bytes)))
  = (Return (omap marker_text (read_lines [] bytes)), []).
Proof.
  intros H. unfold extract_grading_comments_from_file, open_file, read_text.
  rewrite (utf8_decode_ascii _ H). cbn [lines failure].
  by rewrite fold_keep_comment.
Qed.

Lemma lstrip_app s w :
  lstrip (s ++ w) =
  match lstrip s with [] => lstrip w | _ => lstrip s ++ w end.
Proof.
  induction s as [|x s IH]; cbn [app lstrip]; [by destruct (lstrip w)|].
  by destruct (isspace x).
Qed.

Lemma lstrip_all_spaces w : Forall (λ x, isspace x = true) w → lstrip w = [].
Proof. induction 1 as [|x w Hx _ IH]; [done|]. cbn [lstrip]. by rewrite Hx. Qed.

Lemma strip_spaces w1 s w2 :
  Forall (λ x, isspace x = true) w1 → Forall (λ x, isspace x = true) w2 →
  strip (w1 ++ s ++ w2) = strip s.
Proof.
  intros F1 F2. unfold strip. rewrite (lstrip_spaces w1 _ F1), lstrip_app.
  destruct (lstrip s) as [|x t] eqn:E.
  - by rewrite (lstrip_all_spaces _ F2).
  - unfold rstrip. rewrite rev_app_distr. f_equal.
    apply lstrip_spaces. by apply Forall_rev.
Qed.

(** X10.  Indentation and trailing blanks are without effect: when
    blanks (spaces, tabs, line ends, any white space) are put before and
    after the lines of a file, the extractor returns and prints the
    same. *)
Theorem extract_padded_lines file_name file_lines file_lines' e :
  Forall2 padded file_lines file_lines' →
  extract_grading_comments_from_file file_name
    {| lines := file_lines'; failure := e |}
  = extract_grading_comments_from_file file_name
      {| lines := file_lines; failure := e |}.
Proof.
  intros F. unfold extract_grading_comments_from_file. cbn [lines failure].
  enough (omap marker_text file_lines' = omap marker_text file_lines) as H
    by (by rewrite !fold_keep_comment, H).
  induction F as [|l l' ls ls' (w1 & w2 & F1 & F2 & ->) _ IH]; [done|].
  cbn [omap list_omap]. rewrite IH. unfold marker_text.
  by rewrite (strip_spaces w1 l w2 F1 F2).
Qed.

End MoreExtractor.

(** ** More on the walker *)

Section MoreWalker.

Variable py : runtime.

Implicit Types (st : scan) (ps : list (str * node)) (pf : str * node)
  (walker : list walk_item) (target : option node) (n : node)
  (es : list (str * node)).

(** *** The flags *)

Lemma record_file_summary keep keep' st st' pf :
  totals st = totals st' → scan_printed st = scan_printed st' →
  scan_summary (record_file py keep st pf)
  = scan_summary (record_file py keep' st' pf).
Proof.
  intros Ht Hp. unfold record_file.
  destruct (extract_grading_comments_from_file _ _) as [[comments|e] out];
    cbn [scan_summary totals scan_printed]; by rewrite ?Ht, ?Hp.
Qed.

Lemma record_files_summary keep keep' ps st st' :
  totals st = totals st' → scan_printed st = scan_printed st' →
  scan_summary (for_each (record_file py keep) ps st)
  = scan_summary (for_each (record_file py keep') ps st').
Proof.
  revert st st'. induction ps as [|pf ps IH]; intros st st' Ht Hp;
    cbn [for_each].
  - cbn [scan_summary]. by rewrite Ht, Hp.
  - pose proof (record_file_summary keep keep' st st' pf Ht Hp) as H.
    destruct (record_file py keep st pf) as [s1|e1],
             (record_file py keep' st' pf) as [s2|e2];
      cbn [scan_summary] in H; try done.
    injection H as H1 H2. by apply IH.
Qed.

Lemma scan_walk_summary keep keep' walker :
  scan_summary (scan_walk py keep walker)
  = scan_summary (scan_walk py keep' walker).
Proof.
  unfold scan_walk. rewrite !for_each_scan_directory.
  by apply record_files_summary.
Qed.

Lemma call_by_walker write_error directory_path target recursive
    report_per_file write_report :
  compute_totals_in_directory py write_error directory_path target
    recursive report_per_file write_report =
  match walker_of directory_path target recursive with
  | None =>
      Return {| returned := Totals 0 0;
                printed :=
                  [lit "Could not list directory '" ++ directory_path
                   ++ lit "': "
                   ++ match list_files directory_path target with
                      | Raise e => exn_text e
                      | Return _ => []
                      end];
                written := [] |}
  | Some walker =>
      match for_each (record_file py (report_per_file || write_report))
              (processed walker)
              {| totals := (0, 0)%Z; per_file_results := ∅;
                 scan_printed := [] |} with
      | Raise e => Raise e
      | Return st =>
          let reports :=
            if write_report
            then write_reports write_error (per_file_results st)
                   directory_path recursive
            else ([], []) in
          Return {| returned :=
                      if report_per_file
                      then TotalsAndTable (totals st).1 (totals st).2
                             (per_file_results st)
                      else Totals (totals st).1 (totals st).2;
                    printed := scan_printed st ++ reports.2;
                    written := reports.1 |}
      end
  end.
Proof.
  unfold compute_totals_in_directory, walker_of, scan_walk.
  destruct recursive.
  - by rewrite for_each_scan_directory.
  - destruct (list_files directory_path target) as [files|e] eqn:L.
    + by rewrite for_each_scan_directory.
    + by rewrite (list_files_raises _ _ _ L).
Qed.

Lemma totals_of_returned (report_per_file : bool) (t : Z * Z) results out w :
  totals_of (Return {| returned :=
                         if report_per_file
                         then TotalsAndTable t.1 t.2 results
                         else Totals t.1 t.2;
                       printed := out; written := w |}) = Some t.
Proof. destruct t. by destruct report_per_file. Qed.


Lemma record_files_totals_any keep ps st st' :
  for_each (record_file py keep) ps st = Return st' →
  totals st' = pair_add (totals st) (pair_sum (file_score py <$> ps)).
Proof.
  intros H.
  pose proof (record_files_summary keep true ps st st eq_refl eq_refl) as E.
  rewrite H in E.
  destruct (for_each (record_file py true) ps st) as [s|e] eqn:T;
    cbn [scan_summary] in E; [|done].
  injection E as -> _. by apply record_files_totals.
Qed.

(** X12.  The totals a call returns are the sum, over the files it
    opened, of the totals of the comments of the file; a file that is
    met twice counts twice. *)
Theorem returned_totals_sum_file_scores write_error directory_path target
    recursive report_per_file write_report r :
  compute_totals_in_directory py write_error directory_path target
    recursive report_per_file write_report = Return r →
  totals_of (Return r)
  = Some (pair_sum (file_score py <$>
                    scanned_files directory_path target recursive)).
Proof.
  rewrite call_by_walker. unfold scanned_files.
  destruct (walker_of directory_path target recursive) as [walker|];
    [|by intros [= <-]].
  cbn [default].
  destruct (for_each _ _ _) as [st|e] eqn:E; [|done]. cbn zeta.
  intros [= <-]. rewrite totals_of_returned.
  apply record_files_totals_any in E. rewrite E. cbn [totals].
  by rewrite pair_add_zero_l.
Qed.

(** *** Exceptions *)




(** *** Files that are not named [*.py] *)



Lemma processed_bind {E} (h : E → list walk_item) (l : list E) :
  processed (l ≫= h) = l ≫= λ e, processed (h e).
Proof.
  induction l as [|e l IH]; [done|].
  by rewrite !bind_cons, processed_app, IH.
Qed.



(** *** The files written *)

Lemma endswith_app suffix a b :
  endswith suffix b = true → endswith suffix (a ++ b) = true.
Proof.
  unfold endswith. rewrite rev_app_distr. intros H.
  apply startswith_app in H. rewrite H, <- app_assoc.
  apply startswith_self.
Qed.

Lemma endswith_join suffix a b :
  endswith suffix b = true → endswith suffix (join a b) = true.
Proof.
  intros H. unfold join. destruct (startswith [sep] b); [done|].
  destruct a as [|x a]; [done|].
  destruct (endswith [sep] (x :: a)); [by apply endswith_app|].
  rewrite app_assoc. by apply endswith_app.
Qed.

Lemma endswith_self s : endswith s s = true.
Proof.
  unfold endswith. rewrite <- (app_nil_r (rev s)) at 2. apply startswith_self.
Qed.

Lemma report_is_no_source p :
  endswith REPORT_FILE_NAME p = true → endswith (lit ".py") p = false.
Proof.
  unfold endswith. destruct (rev p) as [|x q]; [done|].
  let name := eval vm_compute in (rev REPORT_FILE_NAME) in
  change (rev REPORT_FILE_NAME) with name.
  let py_ext := eval vm_compute in (rev (lit ".py")) in
  change (rev (lit ".py")) with py_ext.
  cbn [startswith].
  intros [<-%N.eqb_eq _]%andb_true_iff. done.
Qed.

Lemma processed_path_py walker pf :
  pf ∈ processed walker → endswith (lit ".py") pf.1 = true.
Proof.
  unfold processed. intros (item & H & _)%list_elem_of_bind.
  apply list_elem_of_fmap in H as (f & -> & [_ Hf]%elem_of_List_filter).
  cbn [fst]. by apply endswith_join.
Qed.

(** X15.  No source file is overwritten: a file that a call writes has
    a name that ends in [grading_report.txt], and is none of the files
    the call has read.  Without [write_report] nothing is written. *)
Theorem reports_overwrite_no_source write_error directory_path target
    recursive report_per_file write_report r :
  compute_totals_in_directory py write_error directory_path target
    recursive report_per_file write_report = Return r →
  (write_report = false → written r = [])
  ∧ ∀ path, path ∈ (written r).*1 →
      endswith REPORT_FILE_NAME path = true
      ∧ path ∉ (scanned_files directory_path target recursive).*1.
Proof.
  rewrite call_by_walker. unfold scanned_files.
  destruct (walker_of directory_path target recursive) as [walker|];
    cbn [default].
  2: { intros [= <-]. split; [done|]. intros path H.
       by apply elem_of_nil in H. }
  destruct (for_each _ _ _) as [st|e]; [|done]. cbn zeta.
  intros [= <-]. cbn [written]. split; [by intros ->|].
  intros path H.
  assert (endswith REPORT_FILE_NAME path = true) as Hname.
  { destruct write_report; [|by apply elem_of_nil in H].
    apply write_reports_paths in H as (_ & d & _ & ->).
    apply endswith_join, endswith_self. }
  split; [done|].
  intros (pf & -> & Hpf%processed_path_py)%list_elem_of_fmap.
  by rewrite (report_is_no_source _ Hname) in Hpf.
Qed.

(** *** The table *)

Lemma record_files_lookup_other ps st st' path :
  for_each (record_file py true) ps st = Return st' →
  path ∉ ps.*1 →
  per_file_results st' !! path = per_file_results st !! path.
Proof.
  revert st. induction ps as [|pf ps IH]; intros st; cbn [for_each].
  - by intros [= <-].
  - destruct (record_file py true st pf) as [st1|e] eqn:R; [|done].
    intros H Hn. apply not_elem_of_cons in Hn as [Hne Hn].
    rewrite (IH _ H Hn). unfold record_file in R.
    destruct (extract_grading_comments_from_file _ _) as [[comments|e] out];
      [|done].
    injection R as <-. cbn [per_file_results]. by rewrite lookup_insert_ne.
Qed.

Lemma record_files_table ps st st' pf :
  for_each (record_file py true) ps st = Return st' →
  NoDup ps.*1 → pf ∈ ps →
  per_file_results st' !! pf.1 = Some (file_comments pf, file_score py pf).
Proof.
  revert st. induction ps as [|pf0 ps IH]; intros st; cbn [for_each].
  - intros _ _ H. by apply elem_of_nil in H.
  - destruct (record_file py true st pf0) as [st1|e] eqn:R; [|done].
    intros H [Hn Hnd]%NoDup_cons [->|Hin]%elem_of_cons.
    + rewrite (record_files_lookup_other _ _ _ _ H Hn).
      unfold record_file in R. unfold file_comments, file_score.
      destruct (extract_grading_comments_from_file _ _)
        as [[comments|e] out]; [|done].
      injection R as <-. cbn [per_file_results fst].
      by rewrite lookup_insert_eq.
    + by apply (IH st1).
Qed.

Lemma walker_NoDup directory_path target recursive walker :
  well_formed_target target →
  walker_of directory_path target recursive = Some walker →
  NoDup (walker ≫= item_paths).
Proof.
  intros Hwf. unfold walker_of. destruct recursive.
  - intros [= <-]. by apply walker_paths_NoDup.
  - destruct (list_files directory_path target) as [files|e] eqn:L; [|done].
    intros [= <-]. apply list_files_returns in L as (es & -> & ->).
    by apply listed_paths_NoDup.
Qed.

(** A call that returns a table: its walk and its scan. *)
Lemma call_returns_table write_error directory_path target recursive
    write_report r obt pos results :
  compute_totals_in_directory py write_error directory_path target
    recursive true write_report = Return r →
  returned r = TotalsAndTable obt pos results →
  ∃ walker st,
    walker_of directory_path target recursive = Some walker
    ∧ for_each (record_file py true) (processed walker)
        {| totals := (0, 0)%Z; per_file_results := ∅; scan_printed := [] |}
      = Return st
    ∧ totals st = (obt, pos) ∧ per_file_results st = results
    ∧ written r = (if write_report
                   then write_reports write_error results directory_path
                          recursive
                   else ([], [])).1.
Proof.
  rewrite call_by_walker.
  destruct (walker_of directory_path target recursive) as [walker|];
    [|by intros [= <-]].
  cbn [orb]. destruct (for_each _ _ _) as [st|e] eqn:E; [|done]. cbn zeta.
  intros [= <-]. cbn [returned written]. intros [= <- <- <-].
  exists walker, st. by destruct (totals st).
Qed.

Lemma scan_table walker st :
  NoDup (processed walker).*1 →
  for_each (record_file py true) (processed walker)
    {| totals := (0, 0)%Z; per_file_results := ∅; scan_printed := [] |}
  = Return st →
  dom (per_file_results st) = list_to_set (processed walker).*1
  ∧ ∀ pf, pf ∈ processed walker →
          per_file_results st !! pf.1
          = Some (file_comments pf, file_score py pf).
Proof.
  intros Hnd Hscan. split.
  - rewrite (record_files_dom py no_write_error _ _ _ Hscan).
    cbn [per_file_results]. by rewrite dom_empty_L, (left_id_L ∅ (∪)).
  - intros pf Hpf. by apply (record_files_table _ _ _ _ Hscan).
Qed.

(** X16.  The table a call returns has one entry for each file the call
    has read, under the path the file was opened with, and no other
    entry; the entry holds the comments of the file and their totals.
    No two files were opened with the same path. *)
Theorem table_content write_error directory_path target recursive
    write_report r obt pos results :
  well_formed_target target →
  compute_totals_in_directory py write_error directory_path target
    recursive true write_report = Return r →
  returned r = TotalsAndTable obt pos results →
  dom results = list_to_set (scanned_files directory_path target recursive).*1
  ∧ NoDup (scanned_files directory_path target recursive).*1
  ∧ ∀ pf, pf ∈ scanned_files directory_path target recursive →
          results !! pf.1 = Some (file_comments pf, file_score py pf).
Proof.
  intros Hwf Hcall Hret.
  destruct (call_returns_table _ _ _ _ _ _ _ _ _ Hcall Hret)
    as (walker & st & Hw & Hscan & _ & <- & _).
  unfold scanned_files. rewrite Hw. cbn [default].
  assert (NoDup (processed walker).*1) as Hnd.
  { rewrite processed_paths.
    by apply (walker_NoDup directory_path target recursive). }
  destruct (scan_table walker st Hnd Hscan) as [Hdom Hentries].
  by repeat split.
Qed.

(** *** The grand totals of the reports *)

Lemma table_sum_elements (results : table) :
  pair_sum (file_totals results <$> elements (dom results))
  = table_sum results.
Proof.
  induction results as [|i x m Hi IH] using map_ind.
  - by rewrite dom_empty_L, elements_empty.
  - rewrite (table_sum_insert _ _ _ Hi), dom_insert_L.
    apply not_elem_of_dom in Hi as Hni.
    rewrite (pair_sum_permutation _ _
               (fmap_Permutation _ _ _ (elements_union_singleton _ _ Hni))).
    cbn [fmap list_fmap]. unfold pair_sum at 1. cbn [foldr].
    fold (pair_sum (file_totals (<[i:=x]> m) <$> elements (dom m))).
    f_equal.
    + unfold file_totals. rewrite lookup_insert_eq. by destruct x.
    + rewrite <- IH. f_equal. apply Forall_fmap_ext_1, Forall_forall.
      intros k Hk%elem_of_elements. unfold file_totals.
      rewrite lookup_insert_ne; [done|]. by intros <-.
Qed.

Lemma pair_sum_add {A} (a b : A → Z * Z) (l : list A) :
  pair_sum ((λ x, pair_add (a x) (b x)) <$> l)
  = pair_add (pair_sum (a <$> l)) (pair_sum (b <$> l)).
Proof.
  induction l as [|x l IH]; [done|]. cbn [fmap list_fmap] in *.
  unfold pair_sum in *. cbn [foldr]. rewrite IH.
  unfold pair_add. cbn [fst snd]. f_equal; lia.
Qed.

Lemma pair_sum_select (v : Z * Z) (b : str) (l : list str) :
  NoDup l →
  pair_sum ((λ d, if bool_decide (b = d) then v else (0, 0)%Z) <$> l)
  = if bool_decide (b ∈ l) then v else (0, 0)%Z.
Proof.
  induction 1 as [|d l Hd Hnd IH]; [done|]. cbn [fmap list_fmap].
  unfold pair_sum in *. cbn [foldr]. rewrite IH.
  destruct (decide (b = d)) as [<-|Hne].
  - rewrite bool_decide_eq_true_2 by done.
    rewrite (bool_decide_eq_false_2 (b ∈ l)) by done.
    rewrite (bool_decide_eq_true_2 (b ∈ b :: l)) by left.
    apply pair_add_zero_r.
  - rewrite (bool_decide_eq_false_2 (b = d)) by done.
    rewrite pair_add_zero_l.
    destruct (decide (b ∈ l)) as [Hin|Hnin].
    + rewrite !bool_decide_eq_true_2; [done|by right|done].
    + rewrite !bool_decide_eq_false_2; [done| |done].
      by intros [?|?]%elem_of_cons.
Qed.

Lemma pair_sum_zero {A} (l : list A) :
  pair_sum ((λ _, (0, 0)%Z) <$> l) = (0, 0)%Z.
Proof.
  induction l as [|x l IH]; [done|]. cbn [fmap list_fmap].
  unfold pair_sum in *. cbn [foldr]. by rewrite IH.
Qed.

(** Sorting the keys by directory loses none and repeats none. *)
Lemma pair_sum_by_directory (f : str → Z * Z) (dirs keys : list str) :
  NoDup dirs → (∀ k, k ∈ keys → dirname k ∈ dirs) →
  pair_sum ((λ d, pair_sum (f <$> List.filter
                                    (λ k, bool_decide (dirname k = d)) keys))
            <$> dirs)
  = pair_sum (f <$> keys).
Proof.
  intros Hnd. induction keys as [|k keys IH]; intros Hin.
  - exact (pair_sum_zero dirs).
  - rewrite (Forall_fmap_ext_1 _
               (λ d, pair_add
                       (if bool_decide (dirname k = d) then f k else (0, 0)%Z)
                       (pair_sum (f <$> List.filter
                                    (λ k, bool_decide (dirname k = d)) keys)))).
    + rewrite pair_sum_add, IH, pair_sum_select by
        (try done; intros; apply Hin; by right).
      rewrite bool_decide_eq_true_2 by (apply Hin; left). done.
    + apply Forall_forall. intros d _. cbn [List.filter].
      destruct (bool_decide (dirname k = d)); [done|].
      by rewrite pair_add_zero_l.
Qed.

Lemma grand_totals_add_up (results : table) directory_path :
  pair_sum (grand_total results <$> report_dirs results directory_path true)
  = table_sum results.
Proof.
  rewrite <- table_sum_elements.
  rewrite <- (pair_sum_permutation _ _
                (fmap_Permutation (file_totals results) _ _
                   (merge_sort_Permutation str_le (elements (dom results))))).
  rewrite <- (pair_sum_by_directory (file_totals results)
                (report_dirs results directory_path true)).
  - f_equal. apply Forall_fmap_ext_1, Forall_forall. intros d _.
    apply grand_total_sums_files_in_dir.
  - unfold report_dirs, sorted. rewrite merge_sort_Permutation.
    apply NoDup_elements.
  - intros k Hk. unfold report_dirs, sorted in *.
    rewrite merge_sort_Permutation in Hk. rewrite merge_sort_Permutation.
    apply elem_of_elements. unfold dirs_to_report.
    apply elem_of_list_to_set, list_elem_of_fmap. eauto.
Qed.

Lemma write_reports_all (results : table) ds acc :
  fold_left (write_one_report no_write_error results) ds acc
  = (acc.1 ++ (report_of results <$> ds), acc.2).
Proof.
  revert acc. induction ds as [|d ds IH]; intros acc.
  - cbn [fold_left fmap list_fmap]. rewrite app_nil_r. by destruct acc.
  - cbn [fold_left]. rewrite IH. unfold write_one_report, no_write_error.
    cbn [fst snd fmap list_fmap]. by rewrite <- app_assoc.
Qed.

Lemma scan_table_sum directory_path target recursive walker st :
  well_formed_target target →
  walker_of directory_path target recursive = Some walker →
  for_each (record_file py true) (processed walker)
    {| totals := (0, 0)%Z; per_file_results := ∅; scan_printed := [] |}
  = Return st →
  totals st = table_sum (per_file_results st).
Proof.
  intros Hwf Hw Hscan. apply (scan_walk_table_sum py walker).
  - by apply (walker_NoDup directory_path target recursive).
  - unfold scan_walk. by rewrite for_each_scan_directory.
Qed.

(** X17.  The reports of a recursive call share out the returned
    totals.  When every report can be written, the files written are the
    reports of the directories of the processed files, in ascending
    order of the directories, and the grand totals of these reports add
    up to the totals the call returns: every processed file is in one
    report, and in one only. *)
Theorem recursive_reports_add_up directory_path target r obt pos results :
  well_formed_target target →
  compute_totals_in_directory py no_write_error directory_path target
    true true true = Return r →
  returned r = TotalsAndTable obt pos results →
  written r = report_of results <$> report_dirs results directory_path true
  ∧ pair_sum (grand_total results <$> report_dirs results directory_path true)
    = (obt, pos).
Proof.
  intros Hwf Hcall Hret.
  destruct (call_returns_table _ _ _ _ _ _ _ _ _ Hcall Hret)
    as (walker & st & Hw & Hscan & Ht & Hres & ->).
  split.
  - unfold write_reports. by rewrite write_reports_all.
  - rewrite grand_totals_add_up, <- Hres, <- Ht.
    symmetry. by apply (scan_table_sum directory_path target true walker).
Qed.

(** X18.  The report of a call that is not recursive, for a directory
    path that is not empty and does not end in a separator: one file is
    written, the report of the directory, and its grand total is the
    totals the call returns. *)
Theorem plain_report_grand_total directory_path target r obt pos results :
  well_formed_target target →
  directory_path ≠ [] → endswith [sep] directory_path = false →
  compute_totals_in_directory py no_write_error directory_path target
    false true true = Return r →
  returned r = TotalsAndTable obt pos results →
  written r = [report_of results directory_path]
  ∧ grand_total results directory_path = (obt, pos).
Proof.
  intros Hwf Hne Hsep Hcall Hret.
  destruct (call_returns_table _ _ _ _ _ _ _ _ _ Hcall Hret)
    as (walker & st & Hw & Hscan & Ht & Hres & ->).
  split.
  - unfold write_reports. rewrite write_reports_all.
    unfold dirs_to_report. by rewrite elements_singleton.
  - pose proof (scan_table_sum _ _ _ _ _ Hwf Hw Hscan) as Hsum.
    rewrite Hres, Ht in Hsum. rewrite Hsum, <- table_sum_elements.
    rewrite grand_total_sums_files_in_dir, filter_all.
    { apply pair_sum_permutation, fmap_Permutation, merge_sort_Permutation. }
    apply Forall_forall. intros p Hp. apply bool_decide_eq_true_2.
    unfold sorted in Hp. rewrite merge_sort_Permutation in Hp.
    apply elem_of_elements in Hp. rewrite <- Hres in Hp.
    rewrite (record_files_dom py no_write_error _ _ _ Hscan) in Hp. cbn [per_file_results] in Hp.
    rewrite dom_empty_L, (left_id_L ∅ (∪)) in Hp.
    apply elem_of_list_to_set, list_elem_of_fmap in Hp as (pf & -> & Hpf).
    unfold walker_of in Hw.
    destruct (list_files directory_path target) as [files|e] eqn:L; [|done].
    injection Hw as <-. apply list_files_returns in L as (es & -> & ->).
    unfold processed in Hpf. rewrite bind_singleton in Hpf. cbn [fst snd] in Hpf.
    apply list_elem_of_fmap in Hpf as (f & -> & [Hf _]%elem_of_List_filter).
    apply elem_of_List_filter in Hf as [Hf _]. cbn [fst].
    apply dirname_join; [|done|done].
    apply (well_formed_dir true es) in Hwf as (_ & Hvalid & _).
    apply (proj1 (Forall_forall _ _) Hvalid), list_elem_of_fmap. eauto.
Qed.

(** *** What a call prints *)








(** *** The order of a report *)

Lemma str_le_cons x a y b :
  str_le (x :: a) (y :: b) ↔ x < y ∨ (x = y ∧ str_le a b).
Proof.
  unfold str_le. cbn [str_leb].
  destruct (N.ltb_spec x y); [naive_solver|].
  destruct (N.eqb_spec x y); [naive_solver lia|].
  split; [done|]. intros [?|[? _]]; lia.
Qed.

Lemma str_le_transitive : Transitive str_le.
Proof.
  intros a. induction a as [|x a IH]; intros [|y b] [|z c]; try done.
  rewrite !str_le_cons. intros [?|[-> ?]] [?|[-> ?]].
  - left. lia.
  - by left.
  - by left.
  - right. split; [done|]. by apply (IH b).
Qed.

Lemma str_le_total : Total str_le.
Proof.
  intros a. induction a as [|x a IH]; intros [|y b];
    [by left|by left|by right|].
  rewrite !str_le_cons.
  destruct (N.lt_trichotomy x y) as [?|[->|?]]; [by left; left| |by right; left].
  destruct (IH b); [left|right]; by right.
Qed.

Lemma StronglySorted_List_filter {A} (R : relation A) (f : A → bool) l :
  StronglySorted R l → StronglySorted R (List.filter f l).
Proof.
  induction 1 as [|x l Hl IH Hx]; [constructor|]. cbn [List.filter].
  destruct (f x); [|done]. constructor; [done|].
  apply Forall_forall. intros y [Hy _]%elem_of_List_filter.
  by apply (proj1 (Forall_forall _ _) Hx).
Qed.

Lemma NoDup_List_filter {A} (f : A → bool) (l : list A) :
  NoDup l → NoDup (List.filter f l).
Proof.
  induction 1 as [|x l Hx Hl IH]; [constructor|]. cbn [List.filter].
  destruct (f x); [|done]. constructor; [|done].
  by intros [? _]%elem_of_List_filter.
Qed.

(** X20.  The files of a report: the keys of the table whose directory
    (by [dirname]) is the directory of the report, each once, in
    ascending order of their paths, the order of [str]. *)
Theorem files_in_dir_sorted (results : table) d :
  StronglySorted str_le (files_in_dir results d)
  ∧ NoDup (files_in_dir results d)
  ∧ ∀ p, p ∈ files_in_dir results d ↔ p ∈ dom results ∧ dirname p = d.
Proof.
  unfold files_in_dir, sorted. split; [|split].
  - apply StronglySorted_List_filter.
    apply (@StronglySorted_merge_sort _ str_le _ str_le_transitive
             str_le_total).
  - apply NoDup_List_filter. rewrite merge_sort_Permutation.
    apply NoDup_elements.
  - intros p. rewrite elem_of_List_filter, merge_sort_Permutation,
      elem_of_elements, bool_decide_eq_true. done.
Qed.

(** *** Recursion *)

Lemma scanned_files_recursive directory_path es :
  scanned_files directory_path (Some (Dir true es)) true
  = scanned_files directory_path (Some (Dir true es)) false
    ++ (es ≫= λ e, scanned_files (join directory_path e.1) (Some e.2) true).
Proof.
  unfold scanned_files, walker_of. cbn [list_files default from_option id].
  rewrite os_walk_dir, processed_cons, processed_bind. done.
Qed.

(** X21.  A recursive scan of a directory is the scan of the directory
    itself followed by the recursive scans of its entries, in the order
    of the listing: the files are read in this order, and the totals of
    the recursive scan are the totals of the directory's own files plus
    the totals of the scans of the entries. *)
Theorem recursive_scan_unfolds directory_path es :
  scanned_files directory_path (Some (Dir true es)) true
  = scanned_files directory_path (Some (Dir true es)) false
    ++ (es ≫= λ e, scanned_files (join directory_path e.1) (Some e.2) true)
  ∧ pair_sum (file_score py <$>
              scanned_files directory_path (Some (Dir true es)) true)
    = pair_add
        (pair_sum (file_score py <$>
                   scanned_files directory_path (Some (Dir true es)) false))
        (pair_sum ((λ e, pair_sum (file_score py <$>
                                   scanned_files (join directory_path e.1)
                                     (Some e.2) true)) <$> es)).
Proof.
  split; [apply scanned_files_recursive|].
  rewrite scanned_files_recursive, fmap_app, pair_sum_app. f_equal.
  induction es as [|e es IH]; [done|].
  rewrite bind_cons, fmap_app, pair_sum_app, IH. done.
Qed.


End MoreWalker.

(** ** directory_demo *)

Section MoreDemo.

Variable py : runtime.
Variable write_error : str → option str.
Variable repr : str → str.

Implicit Types (target : option node) (r : run).






End MoreDemo.

(** ** Instances *)

Lemma compute_score_totals_permutation_witness :
  [lit "### Grading: 3/5"; lit "### Grading: 2/2"]
    ≡ₚ [lit "### Grading: 2/2"; lit "### Grading: 3/5"]
  ∧ compute_score_totals cpython
      [lit "### Grading: 3/5"; lit "### Grading: 2/2"]
    = compute_score_totals cpython
        [lit "### Grading: 2/2"; lit "### Grading: 3/5"].
Proof.
  assert ([lit "### Grading: 3/5"; lit "### Grading: 2/2"]
            ≡ₚ [lit "### Grading: 2/2"; lit "### Grading: 3/5"]) as H
    by apply perm_swap.
  split; [exact H|].
  exact (compute_score_totals_permutation cpython _ _ H).
Defined.

Lemma compute_score_totals_written_witness :
  Forall (λ x, isspace x = true) [32; 9]
  ∧ Forall (λ x, isspace x = true) []
  ∧ Forall (λ x, isspace x = true) [32]
  ∧ digit_group cpython (lit "7") ∧ digit_group cpython (lit "5")
  ∧ no_digit_ahead cpython (lit " well done")
  ∧ has_marker (lit " well done") = false
  ∧ compute_score_totals cpython
      [GRADING_MARKER ++ [32; 9] ++ lit "7" ++ [] ++ [47] ++ [32] ++ lit "5"
       ++ lit " well done"]
    = if converts cpython (lit "7", lit "5")
      then pair_value cpython (lit "7", lit "5") else (0, 0)%Z.
Proof.
  assert (Forall (λ x, isspace x = true) [32; 9]) as F1
    by (repeat constructor).
  assert (Forall (λ x, isspace x = true) []) as F2 by constructor.
  assert (Forall (λ x, isspace x = true) [32]) as F3 by (repeat constructor).
  assert (digit_group cpython (lit "7")) as G1
    by (split; [discriminate|repeat constructor]).
  assert (digit_group cpython (lit "5")) as G2
    by (split; [discriminate|repeat constructor]).
  assert (no_digit_ahead cpython (lit " well done")) as Hn by reflexivity.
  assert (has_marker (lit " well done") = false) as Hm by reflexivity.
  do 7 (split; [assumption|]).
  exact (compute_score_totals_written cpython [32; 9] (lit "7") [] [32]
           (lit "5") (lit " well done") F1 F2 F3 G1 G2 Hn Hm).
Defined.

Lemma compute_score_totals_score_comment_witness :
  (0 ≤ 17)%Z ∧ (0 ≤ 20)%Z
  ∧ compute_score_totals cpython [score_comment 17 20] =
    if converts cpython (str_of_Z 17, str_of_Z 20)
    then (17, 20)%Z else (0, 0)%Z.
Proof.
  assert (0 ≤ 17)%Z as Ha by lia. assert (0 ≤ 20)%Z as Hb by lia.
  split; [exact Ha|]. split; [exact Hb|].
  exact (compute_score_totals_score_comment cpython 17 20 Ha Hb).
Defined.

Lemma compute_score_totals_short_comments_witness :
  Forall (λ c, (length c ≤ 640)%nat)
    [lit "### Grading: 3/5"; lit "### Grading: 1/5 ### Grading: 2/2"]
  ∧ compute_score_totals cpython
      [lit "### Grading: 3/5"; lit "### Grading: 1/5 ### Grading: 2/2"]
    = sum_of_all_pairs cpython
        [lit "### Grading: 3/5"; lit "### Grading: 1/5 ### Grading: 2/2"].
Proof.
  assert (Forall (λ c, (length c ≤ 640)%nat)
            [lit "### Grading: 3/5"; lit "### Grading: 1/5 ### Grading: 2/2"])
    as F by (repeat constructor; simpl; lia).
  split; [exact F|].
  exact (compute_score_totals_short_comments cpython _ F).
Defined.

Lemma extract_again_witness :
  extract_grading_comments_from_file (lit "a.py")
    (open_file (lit "a.py") (Some two_marker_file))
  = (Return [lit "### Grading: 1/2"; lit "### Grading: 3/4"], [])
  ∧ extract_grading_comments_from_file (lit "b.py")
      {| lines := [lit "### Grading: 1/2"; lit "### Grading: 3/4"];
         failure := None |}
    = (Return [lit "### Grading: 1/2"; lit "### Grading: 3/4"], []).
Proof.
  assert (extract_grading_comments_from_file (lit "a.py")
            (open_file (lit "a.py") (Some two_marker_file))
          = (Return [lit "### Grading: 1/2"; lit "### Grading: 3/4"], []))
    as E by reflexivity.
  split; [exact E|].
  exact (extract_again (lit "a.py") _ _ _ (lit "b.py") E).
Defined.

Lemma extract_ascii_file_witness :
  Forall (λ b, b < 128) (lit "x = 1 ### Grading: 1/1" ++ nl)
  ∧ extract_grading_comments_from_file (lit "a.py")
      (open_file (lit "a.py")
         (Some (File true (lit "x = 1 ### Grading: 1/1" ++ nl))))
    = (Return (omap marker_text
                 (read_lines [] (lit "x = 1 ### Grading: 1/1" ++ nl))), []).
Proof.
  assert (Forall (λ b, b < 128) (lit "x = 1 ### Grading: 1/1" ++ nl)) as F
    by (vm_compute; repeat constructor).
  split; [exact F|].
  exact (extract_ascii_file (lit "a.py") _ F).
Defined.

Lemma extract_padded_lines_witness :
  Forall2 padded [lit "### Grading: 1/1"]
    [[32; 9] ++ lit "### Grading: 1/1" ++ [32; 13; 10]]
  ∧ extract_grading_comments_from_file (lit "a.py")
      {| lines := [[32; 9] ++ lit "### Grading: 1/1" ++ [32; 13; 10]];
         failure := None |}
    = extract_grading_comments_from_file (lit "a.py")
        {| lines := [lit "### Grading: 1/1"]; failure := None |}.
Proof.
  assert (Forall2 padded [lit "### Grading: 1/1"]
            [[32; 9] ++ lit "### Grading: 1/1" ++ [32; 13; 10]]) as F.
  { constructor; [|constructor]. exists [32; 9], [32; 13; 10].
    split; [repeat constructor|]. split; [repeat constructor|reflexivity]. }
  split; [exact F|].
  exact (extract_padded_lines (lit "a.py") _ _ None F).
Defined.

Lemma returned_totals_sum_file_scores_witness :
  ∃ r, compute_totals_in_directory cpython no_write_error (lit "tmp/topdir")
         (Some topdir) true false false = Return r
       ∧ totals_of (Return r)
         = Some (pair_sum (file_score cpython <$>
                           scanned_files (lit "tmp/topdir") (Some topdir) true)).
Proof.
  assert (∃ r, compute_totals_in_directory cpython no_write_error
                 (lit "tmp/topdir") (Some topdir) true false false = Return r)
    as [r E] by (eexists; vm_compute; reflexivity).
  exists r. split; [exact E|].
  exact (returned_totals_sum_file_scores cpython no_write_error
           (lit "tmp/topdir") (Some topdir) true false false r E).
Defined.

Lemma reports_overwrite_no_source_witness :
  ∃ r, compute_totals_in_directory cpython no_write_error (lit "hw")
         (Some homework) false false true = Return r
       ∧ (true = false → written r = [])
       ∧ ∀ path, path ∈ (written r).*1 →
           endswith REPORT_FILE_NAME path = true
           ∧ path ∉ (scanned_files (lit "hw") (Some homework) false).*1.
Proof.
  assert (∃ r, compute_totals_in_directory cpython no_write_error (lit "hw")
                 (Some homework) false false true = Return r)
    as [r E] by (eexists; vm_compute; reflexivity).
  exists r. split; [exact E|].
  exact (reports_overwrite_no_source cpython no_write_error (lit "hw")
           (Some homework) false false true r E).
Defined.

Lemma table_content_witness :
  well_formed_target (Some topdir)
  ∧ ∃ r results,
      compute_totals_in_directory cpython no_write_error (lit "tmp/topdir")
        (Some topdir) true true false = Return r
      ∧ returned r = TotalsAndTable 6 9 results
      ∧ dom results
        = list_to_set (scanned_files (lit "tmp/topdir") (Some topdir) true).*1
      ∧ NoDup (scanned_files (lit "tmp/topdir") (Some topdir) true).*1
      ∧ ∀ pf, pf ∈ scanned_files (lit "tmp/topdir") (Some topdir) true →
              results !! pf.1
              = Some (file_comments pf, file_score cpython pf).
Proof.
  split; [exact topdir_well_formed|].
  assert (∃ r, compute_totals_in_directory cpython no_write_error
                 (lit "tmp/topdir") (Some topdir) true true false = Return r
               ∧ ∃ results, returned r = TotalsAndTable 6 9 results)
    as (r & E & results & R).
  { eexists. split; [vm_compute; reflexivity|]. eexists. reflexivity. }
  exists r, results. split; [exact E|]. split; [exact R|].
  exact (table_content cpython no_write_error (lit "tmp/topdir")
           (Some topdir) true false r 6 9 results topdir_well_formed E R).
Defined.

Lemma recursive_reports_add_up_witness :
  well_formed_target (Some topdir)
  ∧ ∃ r results,
      compute_totals_in_directory cpython no_write_error (lit "tmp/topdir")
        (Some topdir) true true true = Return r
      ∧ returned r = TotalsAndTable 6 9 results
      ∧ written r
        = report_of results <$> report_dirs results (lit "tmp/topdir") true
      ∧ pair_sum (grand_total results <$>
                  report_dirs results (lit "tmp/topdir") true)
        = (6, 9)%Z.
Proof.
  split; [exact topdir_well_formed|].
  assert (∃ r, compute_totals_in_directory cpython no_write_error
                 (lit "tmp/topdir") (Some topdir) true true true = Return r
               ∧ ∃ results, returned r = TotalsAndTable 6 9 results)
    as (r & E & results & R).
  { eexists. split; [vm_compute; reflexivity|]. eexists. reflexivity. }
  exists r, results. split; [exact E|]. split; [exact R|].
  exact (recursive_reports_add_up cpython (lit "tmp/topdir") (Some topdir)
           r 6 9 results topdir_well_formed E R).
Defined.

Lemma plain_report_grand_total_witness :
  well_formed_target (Some homework)
  ∧ lit "hw" ≠ [] ∧ endswith [sep] (lit "hw") = false
  ∧ ∃ r results,
      compute_totals_in_directory cpython no_write_error (lit "hw")
        (Some homework) false true true = Return r
      ∧ returned r = TotalsAndTable 7 8 results
      ∧ written r = [report_of results (lit "hw")]
      ∧ grand_total results (lit "hw") = (7, 8)%Z.
Proof.
  assert (lit "hw" ≠ []) as Hne by discriminate.
  assert (endswith [sep] (lit "hw") = false) as Hsep by reflexivity.
  split; [exact homework_well_formed|]. split; [exact Hne|].
  split; [exact Hsep|].
  assert (∃ r, compute_totals_in_directory cpython no_write_error (lit "hw")
                 (Some homework) false true true = Return r
               ∧ ∃ results, returned r = TotalsAndTable 7 8 results)
    as (r & E & results & R).
  { eexists. split; [vm_compute; reflexivity|]. eexists. reflexivity. }
  exists r, results. split; [exact E|]. split; [exact R|].
  exact (plain_report_grand_total cpython (lit "hw") (Some homework)
           r 7 8 results homework_well_formed Hne Hsep E R).
Defined.





(** The demo on the directory of the repository's test: the lines of
    the breakdown show the comments and the pair. *)
Example directory_demo_homework :
  directory_demo cpython no_write_error quoted (lit "hw") (Some homework)
    false true false
  = Done [ lit "Directory totals for 'hw' (recursive=False): 7 / 8";
           lit "Per-file breakdown:";
           lit "  hw/a.py: ['### Grading: 4/5', '### Grading: 1/1'] / (5, 6)";
           lit "  hw/b.py: ['### Grading: 2/2'] / (2, 2)" ] [].
Proof. vm_compute. reflexivity. Qed.
